(** * Verification of the Ollama installer (main.go)

    A shallow embedding of [main.go] and of the Go standard library calls it
    makes.  Go strings are byte sequences and are modelled by [string]
    (lists of 8-bit [ascii]); the file system is a finite map from cleaned
    path names to nodes; the program's effects (file system, console,
    spawned processes, HTTP requests) are threaded through a state monad. *)

From Stdlib Require Import Ascii String List Bool Arith NArith Lia.
From stdpp Require Import base option gmap strings fin_maps.

Set Warnings "-register-all".

#[local] Arguments String.append !_ _ / : simpl nomatch.
#[local] Arguments Ascii.eqb : simpl never.

Local Open Scope string_scope.
Local Open Scope list_scope.

(** ** Strings *)

Module Str.

(** [strings.HasPrefix s p]. *)
Fixpoint HasPrefix (s p : string) {struct p} : bool :=
  match p, s with
  | EmptyString, _ => true
  | String _ _, EmptyString => false
  | String a p', String b s' => if Ascii.eqb a b then HasPrefix s' p' else false
  end.

(** [strings.Contains s sub]: some suffix of [s] starts with [sub]. *)
Fixpoint Contains (s sub : string) : bool :=
  HasPrefix s sub ||
  match s with
  | EmptyString => false
  | String _ s' => Contains s' sub
  end.

(** [strings.Join elems sep]. *)
Fixpoint Join (elems : list string) (sep : string) : string :=
  match elems with
  | [] => EmptyString
  | [e] => e
  | e :: rest => e +:+ sep +:+ Join rest sep
  end.

(** Splitting at every occurrence of the byte [c].  The result always has
    one more segment than there are occurrences of [c]. *)
Fixpoint split_at (c : ascii) (s : string) : list string :=
  match s with
  | EmptyString => [EmptyString]
  | String a s' =>
      if Ascii.eqb a c then EmptyString :: split_at c s'
      else match split_at c s' with
           | [] => [String a EmptyString]
           | seg :: segs => String a seg :: segs
           end
  end.

(** ASCII upper-casing of one byte and of a string. *)
Definition upper_byte (a : ascii) : ascii :=
  let n := nat_of_ascii a in
  if Nat.leb 97 n && Nat.leb n 122 then ascii_of_nat (n - 32) else a.

Fixpoint ToUpperASCII (s : string) : string :=
  match s with
  | EmptyString => EmptyString
  | String a s' => String (upper_byte a) (ToUpperASCII s')
  end.

(** The slice [s[:n]]: the first [n] bytes of [s], all of [s] when it has
    fewer. *)
Fixpoint take (n : nat) (s : string) : string :=
  match n, s with
  | S n', String a s' => String a (take n' s')
  | _, _ => EmptyString
  end.

End Str.

(** The line feed, the carriage return and the double quote. *)
Definition nl : string := String "010" EmptyString.
Definition cr : ascii := "013"%char.
Definition dq : string := String "034" EmptyString.

(** ** fmt: the verbs the program uses *)

Module Fmt.

(** The operands of the program's formatting calls are strings, or errors
    printed through their message. *)
Fixpoint format (wrap : bool) (f : string) (args : list string) : string :=
  match f with
  | EmptyString =>
      match args with
      | [] => EmptyString
      | _ => "%!(EXTRA " +:+ Str.Join (map (fun a => "string=" +:+ a) args) ", " +:+ ")"
      end
  | String "%" EmptyString => "%!(NOVERB)"
  | String "%" (String v f') =>
      if Ascii.eqb v "%" then String "%" (format wrap f' args)
      else
        match args with
        | [] => "%!" +:+ String v "(MISSING)" +:+ format wrap f' []
        | a :: args' =>
            if Ascii.eqb v "s" then a +:+ format wrap f' args'
            else if Ascii.eqb v "v" then a +:+ format wrap f' args'
            else if Ascii.eqb v "w" && wrap then a +:+ format wrap f' args'
            else "%!" +:+ String v "(string=" +:+ a +:+ ")" +:+ format wrap f' args'
        end
  | String c f' => String c (format wrap f' args)
  end.

(** [fmt.Sprintf]: [%w] is not a verb here. *)
Definition Sprintf (f : string) (args : list string) : string := format false f args.

(** [fmt.Errorf]: an error is modelled by its message; [%w] prints the
    wrapped error like [%v]. *)
Definition Errorf (f : string) (args : list string) : string := format true f args.

End Fmt.


(** ** path/filepath on Unix

    [Clean] follows the documented rules of [filepath.Clean], applied to the
    components of the path: empty components (repeated separators) and [.]
    are dropped, an inner [..] removes the component before it, a [..] at the
    beginning of a rooted path is dropped, and the empty result is [.]. *)

Module Filepath.

Definition rooted (path : string) : bool := Str.HasPrefix path "/".

(** [out] holds the components kept so far, the last one first. *)
Definition clean_step (r : bool) (out : list string) (c : string) : list string :=
  if String.eqb c EmptyString || String.eqb c "." then out
  else if String.eqb c ".." then
    match out with
    | [] => if r then [] else [".."]
    | top :: out' => if String.eqb top ".." then ".." :: out else out'
    end
  else c :: out.

Definition components (r : bool) (path : string) : list string :=
  rev (fold_left (clean_step r) (Str.split_at "/" path) []).

Definition render (r : bool) (comps : list string) : string :=
  if r then "/" +:+ Str.Join comps "/"
  else match comps with
       | [] => "."
       | _ => Str.Join comps "/"
       end.

Definition Clean (path : string) : string :=
  render (rooted path) (components (rooted path) path).

(** [filepath.Join]: leading empty elements are skipped, the rest is joined
    with the separator and cleaned; no non-empty element gives the empty
    string. *)
Fixpoint Join (elem : list string) : string :=
  match elem with
  | [] => EmptyString
  | e :: rest =>
      if String.eqb e EmptyString then Join rest
      else Clean (Str.Join elem "/")
  end.

(** [filepath.Dir] of a cleaned path: the path without its last component. *)
Definition Dir (path : string) : string :=
  match removelast (Str.split_at "/" path) with
  | [] => "."
  | [EmptyString] => "/"
  | segs => Str.Join segs "/"
  end.

End Filepath.

(** ** bufio.Scanner with the default split function [ScanLines] *)

Module Bufio.

(** [bufio.MaxScanTokenSize] = 64 * 1024: the scanner's buffer never grows
    beyond it, and a line must fit in it together with its line feed. *)
Definition MaxScanTokenSize : N := 65536.

Fixpoint dropCR (data : string) : string :=
  match data with
  | EmptyString => EmptyString
  | String a EmptyString => if Ascii.eqb a cr then EmptyString else data
  | String a rest => String a (dropCR rest)
  end.

Definition fits (line : string) : bool :=
  N.ltb (N.of_nat (String.length line)) MaxScanTokenSize.

(** The tokens that successive calls of [Scan] deliver until [Scan] returns
    false, given the segments between line feeds.  No token is delivered for
    an empty final segment; at the first line that does not fit the buffer
    [Scan] fails with [ErrTooLong] and delivers nothing more. *)
Fixpoint scan_segments (segs : list string) : list string :=
  match segs with
  | [] => []
  | [final] =>
      match final with
      | EmptyString => []
      | _ => if fits final then [dropCR final] else []
      end
  | seg :: rest =>
      if fits seg
      then dropCR seg :: scan_segments rest
      else []
  end.

Definition scan (data : string) : list string :=
  scan_segments (Str.split_at "010" data).

End Bufio.

(** ** encoding/json

    The lexical level is not modelled: a response body is given by the first
    JSON value the decoder finds in it (what follows that value is not read),
    or by the error the decoder reports when there is none.  Objects keep
    their members in order, duplicates included. *)

Module Json.

Inductive value : Type :=
  | Null
  | Bool (b : bool)
  | Number (literal : string)
  | Str (s : string)
  | Array (elems : list value)
  | Object (members : list (string * value)).

Definition kind (v : value) : string :=
  match v with
  | Null => "null"
  | Bool _ => "bool"
  | Number _ => "number"
  | Str _ => "string"
  | Array _ => "array"
  | Object _ => "object"
  end.

(** Object keys are matched to the struct field's name first exactly and
    then under case folding.  The folded form of the only field name,
    [tag_name], contains none of the letters that have non-ASCII fold
    partners, so a key matches it exactly when both agree after ASCII
    upper-casing. *)
Definition matches_field (name key : string) : bool :=
  String.eqb (Str.ToUpperASCII key) (Str.ToUpperASCII name).

End Json.

(** [type GitHubRelease struct { TagName string `json:"tag_name"` }] *)
Record GitHubRelease : Type := { TagName : string }.

Definition error : Type := option string.

Module JsonDecode.

(** The first error is kept and decoding goes on. *)
Definition saveError (saved : error) (e : string) : error :=
  match saved with
  | Some _ => saved
  | None => Some e
  end.

(** One member of the object, decoded into the struct: a string is stored
    in the field, [null] leaves the field as it is, any other value is a
    type error; a member that matches no field is skipped. *)
Definition member (st : GitHubRelease * error) (kv : string * Json.value)
  : GitHubRelease * error :=
  let '(key, v) := kv in
  if Json.matches_field "tag_name" key then
    match v with
    | Json.Str s => ({| TagName := s |}, snd st)
    | Json.Null => st
    | _ => (fst st,
            saveError (snd st)
              ("json: cannot unmarshal " +:+ Json.kind v +:+
               " into Go struct field GitHubRelease.tag_name of type string"))
    end
  else st.

(** Unmarshalling a value into a [GitHubRelease]. *)
Definition unmarshal (v : Json.value) (release : GitHubRelease) : GitHubRelease * error :=
  match v with
  | Json.Null => (release, None)
  | Json.Object members => fold_left member members (release, None)
  | _ => (release,
          Some ("json: cannot unmarshal " +:+ Json.kind v +:+
                " into Go value of type main.GitHubRelease"))
  end.

End JsonDecode.

(** ** The world the program runs in *)

(** A file has a content and can or cannot be opened for reading and for
    writing; a directory can or cannot be changed, that is, entries can or
    cannot be added to it and removed from it (every directory can be
    searched and listed).  The file system maps cleaned path names to
    nodes; [.] is the working directory. *)
Inductive node : Type :=
  | File (content : string) (readable writable : bool)
  | Directory (writable : bool).

#[global] Instance node_eq_dec : EqDecision node.
Proof. solve_decision. Defined.

(** The outcome of an HTTP request: a transport error, or a response with
    its status code and its body as the JSON decoder sees it. *)
Inductive Body : Type :=
  | BodyError (msg : string)
  | BodyJSON (v : Json.value).

Inductive HttpResult : Type :=
  | HttpError (msg : string)
  | HttpResponse (status : nat) (body : Body).

(** What the program does not control: the value of [$HOME] (empty when
    unset), the answer to the n-th HTTP request of the run, the effect of an
    external command on the file system together with its output and its
    error (absent for exit status 0), whether a write to an open file goes
    through, and how many bytes a write that does not go through has
    written before it failed. *)
Record Env : Type := {
  HOME : string;
  http : nat -> string -> HttpResult;
  exec : list string -> gmap string node -> gmap string node * string * error;
  write_ok : string -> bool;
  short_write : string -> nat;
}.

Record World : Type := {
  fs : gmap string node;
  stdout : list string;
  spawned : list (list string);
  requests : list string;
}.

Definition M (A : Type) : Type := World -> A * World.

#[global] Instance M_ret : MRet M := fun A a w => (a, w).
#[global] Instance M_bind : MBind M :=
  fun A B f m w => let '(a, w') := m w in f a w'.

Definition set_fs (f : gmap string node -> gmap string node) (w : World) : World :=
  {| fs := f (fs w); stdout := stdout w; spawned := spawned w; requests := requests w |}.

(** A file opened for reading, with the data that reading it will deliver;
    an opened directory cannot be read; [HNil] is the nil file that comes
    with an error. *)
Inductive handle : Type :=
  | HFile (data : string)
  | HDir
  | HNil.

Module Os.

Definition Stat (path : string) : M (option node * error) :=
  fun w =>
    match fs w !! path with
    | Some n => ((Some n, None), w)
    | None => ((None, Some ("stat " +:+ path +:+ ": no such file or directory")), w)
    end.

Definition Open (path : string) : M (handle * error) :=
  fun w =>
    match fs w !! path with
    | Some (File c true _) => ((HFile c, None), w)
    | Some (File _ false _) => ((HNil, Some ("open " +:+ path +:+ ": permission denied")), w)
    | Some (Directory _) => ((HDir, None), w)
    | None => ((HNil, Some ("open " +:+ path +:+ ": no such file or directory")), w)
    end.

(** [os.OpenFile path (O_APPEND|O_CREATE|O_WRONLY) 0644]: the file is
    created empty when it is absent and its directory can be changed; the
    new file is one that its owner can read and write (mode 0644 under a
    umask that leaves the owner's bits).  The file opened for appending is
    given by its path, the nil file by [None]. *)
Definition OpenAppend (path : string) : M (option string * error) :=
  fun w =>
    match fs w !! path with
    | Some (File _ _ true) => ((Some path, None), w)
    | Some (File _ _ false) => ((None, Some ("open " +:+ path +:+ ": permission denied")), w)
    | Some (Directory _) => ((None, Some ("open " +:+ path +:+ ": is a directory")), w)
    | None =>
        match fs w !! Filepath.Dir path with
        | Some (Directory true) =>
            ((Some path, None), set_fs (insert path (File EmptyString true true)) w)
        | Some (Directory false) =>
            ((None, Some ("open " +:+ path +:+ ": permission denied")), w)
        | Some (File _ _ _) =>
            ((None, Some ("open " +:+ path +:+ ": not a directory")), w)
        | None => ((None, Some ("open " +:+ path +:+ ": no such file or directory")), w)
        end
    end.

Definition append_content (data : string) (n : node) : node :=
  match n with
  | File c r wr => File (c +:+ data) r wr
  | Directory wr => Directory wr
  end.

(** What a write of [data] that fails has added to the file: the bytes
    written before the failure, which are fewer than those of [data]. *)
Definition short (env : Env) (path data : string) : string :=
  Str.take (Nat.min (short_write env path) (String.length data - 1)) data.

(** [file.WriteString data] on a file opened for appending: all of [data]
    is added at the end; a write that fails has added the first bytes of
    [data], possibly none, and never all of them. *)
Definition WriteString (env : Env) (file : option string) (data : string) : M error :=
  fun w =>
    match file with
    | None => (Some "invalid argument", w)
    | Some path =>
        if write_ok env path
        then (None, set_fs (alter (append_content data) path) w)
        else (Some ("write " +:+ path +:+ ": no space left on device"),
              set_fs (alter (append_content (short env path data)) path) w)
    end.

Definition Mkdir (path : string) : M error :=
  fun w =>
    match fs w !! path with
    | Some _ => (Some ("mkdir " +:+ path +:+ ": file exists"), w)
    | None =>
        match fs w !! Filepath.Dir path with
        | Some (Directory true) => (None, set_fs (insert path (Directory true)) w)
        | Some (Directory false) => (Some ("mkdir " +:+ path +:+ ": permission denied"), w)
        | Some (File _ _ _) => (Some ("mkdir " +:+ path +:+ ": not a directory"), w)
        | None => (Some ("mkdir " +:+ path +:+ ": no such file or directory"), w)
        end
    end.

(** [os.MkdirAll]: nothing to do for a directory, an error for another
    node; otherwise the parent is made first, unless the path has none, and
    then the directory itself.  The recursion is on the parents of the
    path, [fuel] bounds their number. *)
Fixpoint MkdirAll_rec (fuel : nat) (path : string) : M error :=
  fun w =>
    match fs w !! path with
    | Some (Directory _) => (None, w)
    | Some (File _ _ _) => (Some ("mkdir " +:+ path +:+ ": not a directory"), w)
    | None =>
        let parent := Filepath.Dir path in
        if String.eqb parent "." || String.eqb parent path then Mkdir path w
        else
          match fuel with
          | O => (Some ("mkdir " +:+ path +:+ ": path too deep"), w)
          | S fuel' =>
              match MkdirAll_rec fuel' parent w with
              | (Some e, w') => (Some e, w')
              | (None, w') => Mkdir path w'
              end
          end
    end.

Definition MkdirAll (path : string) : M error :=
  MkdirAll_rec (String.length path) path.

(** Is [p] the path [root] or a path below it? *)
Definition below (root p : string) : bool :=
  String.eqb p root || Str.HasPrefix p (root +:+ "/").

Definition dir_writable (path : string) (w : World) : bool :=
  match fs w !! Filepath.Dir path with
  | Some (Directory true) => true
  | _ => false
  end.

(** A node that cannot be removed with what is below it: the node, or a
    node below it, lies in a directory that cannot be changed. *)
Definition stuck (w : World) (p : string) : bool :=
  existsb (fun kv => below p (fst kv) && negb (dir_writable (fst kv) w))
          (map_to_list (fs w)).

(** [os.RemoveAll]: it removes what it can of the path and everything below
    it, and returns an error when something is left: a node stays when its
    directory cannot be changed, and so does every directory above a node
    that stays.  A path that does not exist is no error. *)
Definition RemoveAll (path : string) : M error :=
  fun w =>
    match fs w !! path with
    | None => (None, w)
    | Some _ =>
        (if stuck w path then Some ("unlinkat " +:+ path +:+ ": permission denied") else None,
         set_fs (filter (fun kv => below path (fst kv) = false \/ stuck w (fst kv) = true)) w)
    end.

(** [os.Remove]: a file, or a directory with nothing below it. *)
Definition Remove (path : string) : M error :=
  fun w =>
    match fs w !! path with
    | None => (Some ("remove " +:+ path +:+ ": no such file or directory"), w)
    | Some n =>
        if negb (dir_writable path w)
        then (Some ("remove " +:+ path +:+ ": permission denied"), w)
        else
          match n with
          | File _ _ _ => (None, set_fs (delete path) w)
          | Directory _ =>
              match map_to_list (filter (fun kv => Str.HasPrefix (fst kv) (path +:+ "/") = true) (fs w)) with
              | [] => (None, set_fs (delete path) w)
              | _ :: _ => (Some ("remove " +:+ path +:+ ": directory not empty"), w)
              end
          end
    end.

(** [os.UserHomeDir] on Unix: the value of [$HOME], an error when it is
    empty. *)
Definition UserHomeDir (env : Env) : M (string * error) :=
  fun w =>
    if String.eqb (HOME env) EmptyString
    then ((EmptyString, Some "$HOME is not defined"), w)
    else ((HOME env, None), w).

(** [exec.Command(name, args...).Run()], the command given by its argument
    vector.  With [toStdout] the command's output goes to the program's
    standard output, otherwise it is discarded. *)
Definition Run (env : Env) (toStdout : bool) (argv : list string) : M error :=
  fun w =>
    let '(fs', out, err) := exec env argv (fs w) in
    (err,
     {| fs := fs';
        stdout := if toStdout then stdout w ++ [out] else stdout w;
        spawned := spawned w ++ [argv];
        requests := requests w |}).

(** [http.Get]. *)
Definition HttpGet (env : Env) (url : string) : M HttpResult :=
  fun w =>
    (http env (length (requests w)) url,
     {| fs := fs w; stdout := stdout w; spawned := spawned w;
        requests := requests w ++ [url] |}).

(** [fmt.Printf]. *)
Definition Printf (f : string) (args : list string) : M unit :=
  fun w =>
    (tt,
     {| fs := fs w; stdout := stdout w ++ [Fmt.Sprintf f args];
        spawned := spawned w; requests := requests w |}).

End Os.

(** [json.NewDecoder(body).Decode(&release)]. *)
Definition Decode (body : Body) (release : GitHubRelease) : GitHubRelease * error :=
  match body with
  | BodyError msg => (release, Some msg)
  | BodyJSON v => JsonDecode.unmarshal v release
  end.

(** The tokens of a scanner on an opened file. *)
Definition scanner_tokens (file : handle) : list string :=
  match file with
  | HFile data => Bufio.scan data
  | HDir => []
  | HNil => []
  end.

(** ** URL Builder: [getDownloadURL], main.go lines 35-38 *)

Definition getDownloadURL (version : string) : string :=
  Fmt.Sprintf "https://github.com/ollama/ollama/releases/download/%s/ollama-linux-amd64.tgz"
    [version].

(** ** The program *)

(** [const INSTALLPATH]; the program does not use it. *)
Definition INSTALLPATH : string := "~/bin/ollama".

Section Program.

Variable env : Env.

(** *** Version Resolver: [getLatestOllamaVersion], main.go lines 20-33 *)

Definition getLatestOllamaVersion : M (string * error) :=
  resp ← Os.HttpGet env "https://api.github.com/repos/ollama/ollama/releases/latest";
  match resp with
  | HttpError err =>
      mret (EmptyString, Some (Fmt.Errorf "failed to fetch latest release: %w" [err]))
  | HttpResponse _ body =>
      let '(release, err) := Decode body {| TagName := EmptyString |} in
      match err with
      | Some err => mret (EmptyString, Some (Fmt.Errorf "failed to decode response: %w" [err]))
      | None => mret (TagName release, None)
      end
  end.

(** *** PATH Updater: [updatePath], [fileExists] and [appendToFile],
    main.go lines 101-173 *)

Definition pathExport : string :=
  Eval cbv in "export PATH=" +:+ dq +:+ "$HOME/bin:$PATH" +:+ dq.

Definition configFiles : list string := [".zshrc"; ".bash_profile"; ".bashrc"; ".profile"].

Definition fileExists (filename : string) : M bool :=
  '(_, err) ← Os.Stat filename;
  mret (match err with None => true | Some _ => false end).

Definition appendToFile (filePath content : string) : M error :=
  '(file, err) ← Os.OpenAppend filePath;
  match err with
  | Some err => mret (Some (Fmt.Errorf "failed to open %s: %w" [filePath; err]))
  | None =>
      err ← Os.WriteString env file (nl +:+ content +:+ nl);
      match err with
      | Some err => mret (Some (Fmt.Errorf "failed to write to %s: %w" [filePath; err]))
      | None => mret None
      end
  end.

(** The first loop of [updatePath] (lines 107-121), by recursion on the
    configuration files that are left: is the export line found in one of
    those that can be opened? *)
Fixpoint lineExists (homeDir : string) (files : list string) : M bool :=
  match files with
  | [] => mret false
  | configFile :: rest =>
      let configPath := Filepath.Join [homeDir; configFile] in
      '(file, err) ← Os.Open configPath;
      match err with
      | None =>
          if existsb (fun line => Str.Contains line pathExport) (scanner_tokens file)
          then mret true
          else lineExists homeDir rest
      | Some _ => lineExists homeDir rest
      end
  end.

Definition updatePath (homeDir : string) : M error :=
  found ← lineExists homeDir configFiles;
  if found : bool then mret None
  else
    let zshrcPath := Filepath.Join [homeDir; ".zshrc"] in
    exists_ ← fileExists zshrcPath;
    updated ← (if exists_ : bool then
                 err ← appendToFile zshrcPath pathExport;
                 match err with
                 | None => Os.Printf ("Updated .zshrc with PATH export" +:+ nl) [];; mret true
                 | Some _ => mret false
                 end
               else mret false);
    if updated : bool then mret None
    else
      let bashProfilePath := Filepath.Join [homeDir; ".bash_profile"] in
      err ← appendToFile bashProfilePath pathExport;
      match err with
      | None => Os.Printf ("Updated .bash_profile with PATH export" +:+ nl) [];; mret None
      | Some _ =>
          let bashrcPath := Filepath.Join [homeDir; ".bashrc"] in
          err ← appendToFile bashrcPath pathExport;
          match err with
          | None => Os.Printf ("Updated .bashrc with PATH export" +:+ nl) [];; mret None
          | Some _ =>
              let profilePath := Filepath.Join [homeDir; ".profile"] in
              err ← appendToFile profilePath pathExport;
              match err with
              | None => Os.Printf ("Updated .profile with PATH export" +:+ nl) [];; mret None
              | Some _ => mret (Some (Fmt.Errorf "failed to update any shell configuration file" []))
              end
          end
      end.

(** *** Installer: [installOllama], main.go lines 40-99 *)

Definition installOllama (url : string) : M error :=
  '(homeDir, _) ← Os.UserHomeDir env;
  let tempFile := Filepath.Join [homeDir; "ollama.tgz"] in
  Os.Printf ("Downloading Ollama from %s..." +:+ nl) [url];;
  err ← Os.Run env true ["curl"; "-L"; "-#"; url; "-o"; tempFile];
  match err with
  | Some err => mret (Some (Fmt.Errorf "failed to download: %w" [err]))
  | None =>
      let binDir := Filepath.Join [homeDir; "bin"] in
      err ← Os.MkdirAll binDir;
      match err with
      | Some err => mret (Some (Fmt.Errorf "failed to create bin directory: %w" [err]))
      | None =>
          let tempDir := Filepath.Join [homeDir; "ollama-extract"] in
          Os.RemoveAll tempDir;;
          Os.MkdirAll tempDir;;
          Os.Printf ("Extracting Ollama binary..." +:+ nl) [];;
          err ← Os.Run env true ["tar"; "-xzf"; tempFile; "-C"; tempDir];
          match err with
          | Some err => mret (Some (Fmt.Errorf "failed to extract: %w" [err]))
          | None =>
              let finalPath := Filepath.Join [binDir; "ollama"] in
              err ← Os.Run env false
                      ["mv"; Filepath.Join [tempDir; "bin"; "ollama"]; finalPath];
              match err with
              | Some err => mret (Some (Fmt.Errorf "failed to move binary: %w" [err]))
              | None =>
                  err ← Os.Run env false ["chmod"; "+x"; finalPath];
                  match err with
                  | Some err => mret (Some (Fmt.Errorf "failed to make executable: %w" [err]))
                  | None =>
                      Os.Remove tempFile;;
                      Os.RemoveAll tempDir;;
                      err ← updatePath homeDir;
                      match err with
                      | Some err =>
                          Os.Printf ("Warning: Failed to update PATH: %v" +:+ nl) [err]
                      | None => mret tt
                      end;;
                      Os.Printf ("Ollama installed successfully to %s" +:+ nl) [finalPath];;
                      Os.Printf
                        ("Please restart your terminal OR log out and log back in to use the new version"
                         +:+ nl) [];;
                      mret None
                  end
              end
          end
      end
  end.

(** *** [main], main.go lines 175-189 *)

Definition main : M unit :=
  '(version, err) ← getLatestOllamaVersion;
  match err with
  | Some err => Os.Printf ("Error getting latest version: %v" +:+ nl) [err]
  | None =>
      let url := getDownloadURL version in
      Os.Printf ("Latest Ollama version: %s" +:+ nl) [version];;
      err ← installOllama url;
      match err with
      | Some err => Os.Printf ("Installation failed: %v" +:+ nl) [err]
      | None => mret tt
      end
  end.

End Program.

(** * Specification vocabulary *)

Definition latestURL : string :=
  "https://api.github.com/repos/ollama/ollama/releases/latest".

(** A member that fills or keeps the field, or that the decoder skips. *)
Definition harmless_member (kv : string * Json.value) : bool :=
  negb (Json.matches_field "tag_name" (fst kv)) ||
  match snd kv with
  | Json.Str _ | Json.Null => true
  | _ => false
  end.

(** What the decoder does not accept: a body without a well-formed JSON
    value, a value that is neither an object nor [null], and an object with
    a member named [tag_name] (up to letter case) whose value is neither a
    string nor [null]. *)
Definition decoder_rejects (body : Body) : Prop :=
  match body with
  | BodyError _ => True
  | BodyJSON Json.Null => False
  | BodyJSON (Json.Object members) =>
      exists key v, In (key, v) members /\
        Json.matches_field "tag_name" key = true /\
        v <> Json.Null /\ forall s, v <> Json.Str s
  | BodyJSON _ => True
  end.

(** ** Sample worlds and environments *)

Definition world0 : World :=
  {| fs := ∅; stdout := []; spawned := []; requests := [] |}.

(** An environment that answers every request with the given body. *)
Definition env_with_body (status : nat) (v : Json.value) : Env :=
  {| HOME := "/home/u";
     http := fun _ _ => HttpResponse status (BodyJSON v);
     exec := fun _ fs => (fs, EmptyString, None);
     write_ok := fun _ => true;
     short_write := fun _ => 0 |}.

(** ** PATH Updater vocabulary *)

(** The text that [appendToFile] adds for the export line. *)
Definition exportText : string := nl +:+ pathExport +:+ nl.

(** A line that contains the export line as a substring. *)
Definition has_line (line : string) : Prop :=
  exists before after, line = before +:+ pathExport +:+ after.

(** The lines of a file content, split at the line feeds. *)
Definition lines (content : string) : list string := Str.split_at "010" content.

(** The number of lines with the export line in a content, in the file at a
    path, and in the candidate files of a home directory together. *)
Definition line_count (content : string) : nat :=
  length (filter (fun line => Str.Contains line pathExport = true) (lines content)).

Definition file_count (files : gmap string node) (path : string) : nat :=
  match files !! path with
  | Some (File content _ _) => line_count content
  | _ => 0
  end.

Definition occurrences (homeDir : string) (files : gmap string node) : nat :=
  list_sum (map (fun name => file_count files (Filepath.Join [homeDir; name])) configFiles).

(** ** Path vocabulary *)

(** A string without separator. *)
Definition nosep (name : string) : bool :=
  match Str.split_at "/" name with
  | [_] => true
  | _ => false
  end.

(** A file or directory name: not empty, not [.] or [..], no separator. *)
Definition plain (name : string) : bool :=
  negb (String.eqb name EmptyString) && negb (String.eqb name ".") &&
  negb (String.eqb name "..") && nosep name.

(** The kept components, last one first: plain names above a block of
    [..], the block being empty for a rooted path. *)
Definition good_stack (r : bool) (out : list string) : Prop :=
  exists k names, out = names ++ repeat ".." k /\
    Forall (fun c => plain c = true) names /\ (r = true -> k = 0).

(** The cleaned components of a home directory, and whether it is rooted;
    the empty home directory contributes nothing to a joined path. *)
Definition home_rooted (homeDir : string) : bool :=
  if String.eqb homeDir EmptyString then false else Filepath.rooted homeDir.

Definition home_comps (homeDir : string) : list string :=
  if String.eqb homeDir EmptyString then []
  else Filepath.components (Filepath.rooted homeDir) homeDir.

(** What every path joined from a home directory and names starts with. *)
Definition dirprefix (homeDir : string) : string :=
  (if home_rooted homeDir then "/" else EmptyString) +:+
  match home_comps homeDir with
  | [] => EmptyString
  | comps => Str.Join comps "/" +:+ "/"
  end.

(** The export line shows in the file at a path: the file can be opened
    for reading and the scanner delivers a line that contains it. *)
Definition visible (files : gmap string node) (path : string) : bool :=
  match files !! path with
  | Some (File content true _) =>
      existsb (fun line => Str.Contains line pathExport) (Bufio.scan content)
  | _ => false
  end.

(** The node [new] is the file [old], or a new file when there is no
    [old] node, with [added] at the end of its content; a file that was
    there keeps what can be done with it. *)
Definition extended_by (added : string) (old new : option node) : Prop :=
  exists content r wr,
    (old = Some (File content r wr) \/ (old = None /\ content = EmptyString)) /\
    new = Some (File (content +:+ added) r wr).

(** A beginning of a text that is not all of it. *)
Definition proper_prefix (part text : string) : Prop :=
  exists rest, rest <> EmptyString /\ text = part +:+ rest.

(** What an append of the export text that has failed can have done to the
    node at a path: nothing, or the bytes that its write has written are at
    the end of the file. *)
Definition failed_append (env : Env) (path : string) (old new : option node) : Prop :=
  new = old \/ extended_by (Os.short env path exportText) old new.


(** The message of [updatePath] when no append has succeeded. *)
Definition updateError : string := "failed to update any shell configuration file".

(** The line that [updatePath] prints after an append to a candidate. *)
Definition updatedLine (name : string) : string :=
  "Updated " +:+ name +:+ " with PATH export" +:+ nl.

(** The result [r] and the world [w1] of a sequence of attempts on the
    files of the given names, started in [w]: nothing is spawned or
    requested and only these files change; with an error, which is the fixed
    message, nothing is printed and every attempt has failed; without one,
    one file has received the export text, its name has been printed, and
    the attempts on the other files have failed. *)
Definition attempts_outcome (env : Env) (homeDir : string) (names : list string)
    (w : World) (r : error) (w1 : World) : Prop :=
  spawned w1 = spawned w /\ requests w1 = requests w /\
  (forall p, ~ In p (map (fun name => Filepath.Join [homeDir; name]) names) ->
             fs w1 !! p = fs w !! p) /\
  match r with
  | Some e =>
      e = updateError /\ stdout w1 = stdout w /\
      forall p, failed_append env p (fs w !! p) (fs w1 !! p)
  | None =>
      exists name, In name names /\
        stdout w1 = stdout w ++ [updatedLine name] /\
        extended_by exportText (fs w !! Filepath.Join [homeDir; name])
                               (fs w1 !! Filepath.Join [homeDir; name]) /\
        forall p, p <> Filepath.Join [homeDir; name] ->
                  failed_append env p (fs w !! p) (fs w1 !! p)
  end.


(** The candidates of the PATH Updater in the order of its attempts; the
    flag says that the candidate is only tried when it exists. *)
Definition candidates : list (string * bool) :=
  [(".zshrc", true); (".bash_profile", false); (".bashrc", false); (".profile", false)].

(** The order of attempts in words: a flagged candidate that does not
    exist is passed over; the first candidate whose append succeeds ends
    the run with a message; the run fails when no append succeeds. *)
Fixpoint first_append (env : Env) (homeDir : string) (cands : list (string * bool))
  : M error :=
  match cands with
  | [] => mret (Some "failed to update any shell configuration file")
  | (name, only_if_present) :: rest =>
      fun w =>
        let path := Filepath.Join [homeDir; name] in
        match only_if_present, fs w !! path with
        | true, None => first_append env homeDir rest w
        | _, _ =>
            match appendToFile env path pathExport w with
            | (None, w') =>
                (None,
                 snd (Os.Printf ("Updated " +:+ name +:+ " with PATH export" +:+ nl) [] w'))
            | (Some _, w') => first_append env homeDir rest w'
            end
        end
  end.

Definition updatePath_spec (env : Env) (homeDir : string) : M error :=
  fun w =>
    if existsb (fun name => visible (fs w) (Filepath.Join [homeDir; name])) configFiles
    then (None, w)
    else first_append env homeDir candidates w.

(** An environment in which every external command succeeds and changes
    nothing, every write goes through, and the network is down. *)
Definition env_ok : Env :=
  {| HOME := "/home/u";
     http := fun _ _ => HttpError "dial tcp: network is unreachable";
     exec := fun _ files => (files, EmptyString, None);
     write_ok := fun _ => true;
     short_write := fun _ => 0 |}.

(** A world with the home directory [/home/u] and the given nodes. *)
Definition home_world (nodes : list (string * node)) : World :=
  {| fs := list_to_map
             (("/", Directory true) :: ("/home", Directory true) ::
              ("/home/u", Directory true) :: nodes);
     stdout := []; spawned := []; requests := [] |}.

(** A [.bashrc] with the export line commented out. *)
Definition commented_bashrc : string :=
  "# my bashrc" +:+ nl +:+ "# " +:+ pathExport +:+ " # disabled" +:+ nl.

(** A [.zshrc] that holds the export line and cannot be read. *)
Definition unreadable_zshrc : node := File (pathExport +:+ nl) false true.

(** ** Installer vocabulary *)

(** The argument vectors of the four external commands. *)
Definition curl_argv (url tempFile : string) : list string :=
  ["curl"; "-L"; "-#"; url; "-o"; tempFile].
Definition tar_argv (tempFile tempDir : string) : list string :=
  ["tar"; "-xzf"; tempFile; "-C"; tempDir].
Definition mv_argv (source target : string) : list string := ["mv"; source; target].
Definition chmod_argv (path : string) : list string := ["chmod"; "+x"; path].

(** A command changes the file system at most at the allowed paths. *)
Definition writes_only (env : Env) (argv : list string) (allowed : string -> bool) : Prop :=
  forall files p, allowed p = false -> (exec env argv files).1.1 !! p = files !! p.

(** The worlds in which the download, the extraction and the PATH Updater
    start: after the announcement; after the scratch directory has been
    reset and the extraction announced; after the clean-up. *)
Definition before_download (url : string) (w : World) : World :=
  snd (Os.Printf ("Downloading Ollama from %s..." +:+ nl) [url] w).

Definition before_extract (tempDir : string) (w : World) : World :=
  snd (Os.Printf ("Extracting Ollama binary..." +:+ nl) []
         (snd (Os.MkdirAll tempDir (snd (Os.RemoveAll tempDir w))))).

Definition before_updatePath (tempFile tempDir : string) (w : World) : World :=
  snd (Os.RemoveAll tempDir (snd (Os.Remove tempFile w))).

(** The three lines that end a run in which the PATH Updater has failed. *)
Definition closing_lines (err finalPath : string) : list string :=
  ["Warning: Failed to update PATH: " +:+ err +:+ nl;
   "Ollama installed successfully to " +:+ finalPath +:+ nl;
   "Please restart your terminal OR log out and log back in to use the new version" +:+ nl].

(** Environments in which the command of the given name exits with an
    error and the other commands succeed; no command changes the file
    system. *)
Definition env_failing (command : string) : Env :=
  {| HOME := "/home/u";
     http := fun _ _ => HttpError "dial tcp: network is unreachable";
     exec := fun argv files =>
       match argv with
       | name :: _ =>
           if String.eqb name command then (files, EmptyString, Some "exit status 1")
           else (files, EmptyString, None)
       | [] => (files, EmptyString, None)
       end;
     write_ok := fun _ => true;
     short_write := fun _ => 0 |}.

(** An environment in which no write to a file goes through, and none
    writes a byte. *)
Definition env_disk_full : Env :=
  {| HOME := "/home/u";
     http := fun _ _ => HttpError "dial tcp: network is unreachable";
     exec := fun _ files => (files, EmptyString, None);
     write_ok := fun _ => false;
     short_write := fun _ => 0 |}.

(** An environment in which every write fails after the given number of
    bytes. *)
Definition env_short_write (bytes : nat) : Env :=
  {| HOME := "/home/u";
     http := fun _ _ => HttpError "dial tcp: network is unreachable";
     exec := fun _ files => (files, EmptyString, None);
     write_ok := fun _ => false;
     short_write := fun _ => bytes |}.

(** An environment without [$HOME]. *)
Definition env_no_home : Env :=
  {| HOME := EmptyString;
     http := fun _ _ => HttpError "dial tcp: network is unreachable";
     exec := fun _ files => (files, EmptyString, None);
     write_ok := fun _ => true;
     short_write := fun _ => 0 |}.

(** A world with a working directory that can be changed and nothing in
    it. *)
Definition cwd_world : World :=
  {| fs := {["." := Directory true]}; stdout := []; spawned := []; requests := [] |}.

(** The world after some more lines have been printed. *)
Definition printed (more : list string) (w : World) : World :=
  {| fs := fs w; stdout := stdout w ++ more; spawned := spawned w;
     requests := requests w |}.

(** The operations of the installer on directories leave the console and
    the logs alone. *)
Definition same_io (w w' : World) : Prop :=
  stdout w' = stdout w /\ spawned w' = spawned w /\ requests w' = requests w.

(** Projections of pairs that are visible as such. *)
Ltac snd_pair :=
  repeat match goal with
         | |- context [snd (?a, ?b)] => change (snd (a, b)) with b
         end.


(** ** Vocabulary of the further properties *)

(** The members of a JSON object that the decoder stores in the field or
    rejects; the others are skipped. *)
Definition tag_members (members : list (string * Json.value)) : list (string * Json.value) :=
  List.filter (fun kv => Json.matches_field "tag_name" (fst kv)) members.

(** The four commands of the installer for a download address and a home
    directory, in the order in which they are spawned. *)
Definition install_commands (url homeDir : string) : list (list string) :=
  let tempFile := Filepath.Join [homeDir; "ollama.tgz"] in
  let tempDir := Filepath.Join [homeDir; "ollama-extract"] in
  let finalPath := Filepath.Join [Filepath.Join [homeDir; "bin"]; "ollama"] in
  [curl_argv url tempFile;
   tar_argv tempFile tempDir;
   mv_argv (Filepath.Join [tempDir; "bin"; "ollama"]) finalPath;
   chmod_argv finalPath].

(** Every node at or below a path lies in a directory that can be
    changed. *)
Definition removable (w : World) (root : string) : Prop :=
  forall q n, fs w !! q = Some n -> Os.below root q = true -> Os.dir_writable q w = true.

(** A response without a tag, as the API sends it when the rate limit is
    exceeded. *)
Definition rate_limited : Json.value :=
  Json.Object [("message", Json.Str "API rate limit exceeded");
               ("documentation_url", Json.Str "https://docs.github.com/rest")].

(** The console of [w'] is the console of [w] with more lines after it. *)
Definition grows (w w' : World) : Prop :=
  exists more, stdout w' = stdout w ++ more.

(** A home directory in which an earlier extraction has left files. *)
Definition stale_scratch : World :=
  home_world [("/home/u/ollama-extract", Directory true);
              ("/home/u/ollama-extract/bin", Directory true);
              ("/home/u/ollama-extract/bin/ollama", File "old binary" true true)].

(** A home directory after an installation, before the clean-up. *)
Definition uncleaned : World :=
  home_world [("/home/u/ollama.tgz", File "archive" true true);
              ("/home/u/bin", Directory true);
              ("/home/u/bin/ollama", File "binary" true true);
              ("/home/u/ollama-extract", Directory true);
              ("/home/u/ollama-extract/lib", Directory true)].

(** * Properties *)

#[local] Arguments Filepath.Join : simpl never.
#[local] Arguments Filepath.Clean : simpl never.
#[local] Arguments Filepath.Dir : simpl never.

(** ** Strings *)

Module StrFacts.

Lemma app_assoc (a b c : string) : (a +:+ b) +:+ c = a +:+ b +:+ c.
Proof. induction a as [|x a IH]; simpl; [reflexivity | now rewrite IH]. Qed.

Lemma app_nil_r (a : string) : a +:+ EmptyString = a.
Proof. induction a as [|x a IH]; simpl; [reflexivity | now rewrite IH]. Qed.

Lemma length_app (a b : string) :
  String.length (a +:+ b) = String.length a + String.length b.
Proof. induction a as [|x a IH]; simpl; [reflexivity | now rewrite IH]. Qed.

Lemma HasPrefix_spec (s p : string) :
  Str.HasPrefix s p = true <-> exists r, s = p +:+ r.
Proof.
  revert s. induction p as [|a p IH]; intros s; simpl.
  - split; [intros _; exists s; reflexivity | reflexivity].
  - destruct s as [|b s]; [split; [discriminate | intros [r H]; discriminate]|].
    destruct (Ascii.eqb_spec a b) as [->|Hne].
    + rewrite IH. split; intros [r H]; exists r; congruence.
    + split; [discriminate | intros [r H]; congruence].
Qed.

Lemma Contains_spec (s sub : string) :
  Str.Contains s sub = true <-> exists a b, s = a +:+ sub +:+ b.
Proof.
  induction s as [|c s IH]; simpl; rewrite orb_true_iff, HasPrefix_spec.
  - split.
    + intros [[r H]|H]; [exists EmptyString, r; exact H | discriminate].
    + intros [a [b H]]. left. destruct a; [eauto | discriminate].
  - rewrite IH. split.
    + intros [[r H]|[a [b H]]]; [exists EmptyString, r; exact H|].
      exists (String c a), b. simpl. now rewrite H.
    + intros [[|x a] [b H]]; [left; eauto|].
      right. exists a, b. simpl in H. congruence.
Qed.

End StrFacts.

(** ** URL Builder *)

(** C3: for every version string the URL is the fixed base, the version and
    the fixed asset name, in this order; the function takes nothing but the
    version, so equal versions give equal URLs; for [v0.5.2] it is the URL
    of the scenario; the URL ends with the asset file name and contains the
    version verbatim. *)
Theorem getDownloadURL_spec (version : string) :
  getDownloadURL version =
    "https://github.com/ollama/ollama/releases/download/" +:+ version +:+
    "/ollama-linux-amd64.tgz"
  /\ getDownloadURL "v0.5.2" =
       "https://github.com/ollama/ollama/releases/download/v0.5.2/ollama-linux-amd64.tgz"
  /\ (exists base, getDownloadURL version = base +:+ "ollama-linux-amd64.tgz")
  /\ (exists base rest, getDownloadURL version = base +:+ version +:+ rest).
Proof.
  assert (E : getDownloadURL version =
    "https://github.com/ollama/ollama/releases/download/" +:+ version +:+
    "/ollama-linux-amd64.tgz") by reflexivity.
  split; [exact E|]. split; [reflexivity|]. split.
  - exists ("https://github.com/ollama/ollama/releases/download/" +:+ version +:+ "/").
    rewrite E. now rewrite !StrFacts.app_assoc.
  - eexists _, _. exact E.
Qed.

(** ** Version Resolver *)


Module DecodeFacts.


Lemma member_error_kept st kv e :
  snd st = Some e -> snd (JsonDecode.member st kv) = Some e.
Proof.
  destruct st as [r sv], kv as [key v]; simpl; intros ->.
  destruct (Json.matches_field _ key); [|reflexivity].
  destruct v; reflexivity.
Qed.

Lemma fold_error_kept members : forall st e,
  snd st = Some e -> snd (fold_left JsonDecode.member members st) = Some e.
Proof.
  induction members as [|kv ms IH]; intros st e H; simpl; [exact H|].
  apply IH. now apply member_error_kept.
Qed.

Lemma member_harmless st kv :
  snd st = None ->
  snd (JsonDecode.member st kv) = None <-> harmless_member kv = true.
Proof.
  destruct st as [r sv], kv as [key v]; unfold harmless_member; simpl; intros ->.
  destruct (Json.matches_field _ key); simpl; [|tauto].
  destruct v; simpl; split; congruence.
Qed.

Lemma fold_accepts members : forall st,
  snd st = None ->
  snd (fold_left JsonDecode.member members st) = None <->
  forallb harmless_member members = true.
Proof.
  induction members as [|kv ms IH]; intros st H; simpl; [tauto|].
  rewrite andb_true_iff.
  destruct (snd (JsonDecode.member st kv)) as [e|] eqn:E.
  - rewrite (fold_error_kept ms _ e E). split; [discriminate|].
    intros [Hk _]. apply (member_harmless st kv H) in Hk. congruence.
  - rewrite (IH _ E). pose proof (proj1 (member_harmless st kv H) E). tauto.
Qed.

Lemma fold_tag members s : forall st,
  snd st = None ->
  (forall key v, In (key, v) members -> Json.matches_field "tag_name" key = true ->
                 v = Json.Str s) ->
  fst st = {| TagName := s |} \/
    (exists key, In (key, Json.Str s) members /\ Json.matches_field "tag_name" key = true) ->
  fold_left JsonDecode.member members st = ({| TagName := s |}, None).
Proof.
  induction members as [|[key v] ms IH]; intros [r sv] Hsv Hall Hin; simpl in *; subst sv.
  - destruct Hin as [->|[k [[] _]]]. reflexivity.
  - apply IH.
    + destruct (Json.matches_field _ key) eqn:Em; [|reflexivity].
      rewrite (Hall key v (or_introl eq_refl) Em). reflexivity.
    + intros k' v' H'. apply Hall. now right.
    + destruct (Json.matches_field _ key) eqn:Em.
      * left. rewrite (Hall key v (or_introl eq_refl) Em). reflexivity.
      * destruct Hin as [->|[k [[Hk|Hk] Hm]]]; [now left| |right; eauto].
        congruence.
Qed.

End DecodeFacts.


Section Resolver.

Variable env : Env.

(** C4, as amended: when the body of the response is a JSON object with a
    string member [tag_name], and every member whose name is [tag_name] up
    to letter case carries that same string, the resolver returns exactly
    this string; the other members can be anything. *)
Theorem getLatestOllamaVersion_tag (w : World) (status : nat)
    (members : list (string * Json.value)) (tag : string) :
  http env (length (requests w)) latestURL =
    HttpResponse status (BodyJSON (Json.Object members)) ->
  In ("tag_name", Json.Str tag) members ->
  (forall key v, In (key, v) members -> Json.matches_field "tag_name" key = true ->
                 v = Json.Str tag) ->
  fst (getLatestOllamaVersion env w) = (tag, None).
Proof.
  intros Hresp Hin Hall.
  unfold getLatestOllamaVersion, mbind, M_bind, Os.HttpGet. fold latestURL.
  rewrite Hresp. simpl.
  rewrite (DecodeFacts.fold_tag members tag); try reflexivity; try assumption.
  right. exists "tag_name". split; [assumption | reflexivity].
Qed.

(** C5, as amended: the resolver returns an error exactly when the request
    fails or the decoder rejects the body; a JSON object without the member
    is accepted.  With an error the version is empty, and in every case the
    run has made exactly one request and changed nothing else. *)
Theorem getLatestOllamaVersion_fails (w : World) :
  let r := getLatestOllamaVersion env w in
  (snd (fst r) <> None <->
     (exists msg, http env (length (requests w)) latestURL = HttpError msg) \/
     (exists status body,
        http env (length (requests w)) latestURL = HttpResponse status body /\
        decoder_rejects body))
  /\ (snd (fst r) <> None -> fst (fst r) = EmptyString)
  /\ requests (snd r) = requests w ++ [latestURL]
  /\ fs (snd r) = fs w /\ stdout (snd r) = stdout w /\ spawned (snd r) = spawned w.
Proof.
  unfold getLatestOllamaVersion, mbind, M_bind, Os.HttpGet. fold latestURL.
  destruct (http env (length (requests w)) latestURL) as [msg|status body]; simpl.
  - repeat split; try reflexivity; try discriminate. left. eauto.
  - destruct (Decode body _) as [release err] eqn:ED.
    assert (Hiff : err <> None <-> decoder_rejects body).
    { destruct body as [m|v]; simpl in ED.
      - inversion ED; subst. simpl. split; [tauto | discriminate].
      - assert (snd (JsonDecode.unmarshal v {| TagName := EmptyString |}) = err)
          by now rewrite ED.
        subst err. clear ED.
        destruct v as [| | | | |members]; simpl; try (split; [tauto | discriminate]);
          try (split; [congruence | tauto]).
        pose proof (DecodeFacts.fold_accepts members
                      ({| TagName := EmptyString |}, None) eq_refl) as HA.
        split.
        + intros Hne.
          destruct (forallb harmless_member members) eqn:Ef.
          { exfalso. apply Hne. now apply HA. }
          assert (Hex : exists kv, In kv members /\ harmless_member kv = false).
          { clear -Ef. induction members as [|kv ms IH]; simpl in *; [congruence|].
            destruct (harmless_member kv) eqn:Ek.
            - destruct IH as [kv' [? ?]]; [exact Ef|]. eauto.
            - eauto. }
          destruct Hex as [[key v] [Hin Hh]]. exists key, v.
          unfold harmless_member in Hh. simpl in Hh.
          apply orb_false_iff in Hh as [Hm Hv]. apply negb_false_iff in Hm.
          repeat split; try assumption.
          * intros ->. discriminate.
          * intros s ->. discriminate.
        + intros [key [v [Hin [Hm [Hn Hs]]]]] Hnone.
          apply HA in Hnone. rewrite forallb_forall in Hnone.
          specialize (Hnone _ Hin). unfold harmless_member in Hnone.
          simpl in Hnone. rewrite Hm in Hnone. simpl in Hnone.
          destruct v; try discriminate; [now apply Hn | now apply (Hs s)]. }
    destruct err as [e|]; simpl.
    + repeat split; try reflexivity; try discriminate.
      intros _. right. exists status, body. split; [reflexivity|]. apply Hiff. discriminate.
    + repeat split; try reflexivity; try congruence.
      intros [[msg Hm]|[st [b [Hb Hr]]]]; [discriminate|].
      inversion Hb; subst. apply Hiff in Hr. congruence.
Qed.

End Resolver.



Lemma getLatestOllamaVersion_tag_witness :
  fst (getLatestOllamaVersion
         (env_with_body 200
            (Json.Object [("name", Json.Str "v0.5.2 release");
                          ("tag_name", Json.Str "v0.5.2");
                          ("draft", Json.Bool false)]))
         world0) = ("v0.5.2", None).
Proof.
  apply (getLatestOllamaVersion_tag _ world0 200
           [("name", Json.Str "v0.5.2 release");
            ("tag_name", Json.Str "v0.5.2");
            ("draft", Json.Bool false)] "v0.5.2").
  - reflexivity.
  - simpl. tauto.
  - intros key v [H|[H|[H|[]]]] Hm; inversion H; subst; try reflexivity; discriminate.
Defined.

(** C4 as stated fails: the body below is valid JSON with the string member
    [tag_name] = [v0.5.2], and the resolver returns the value of the member
    [TAG_NAME] that follows it. *)
Lemma getLatestOllamaVersion_tag_counterexample :
  let members := [("tag_name", Json.Str "v0.5.2"); ("TAG_NAME", Json.Str "nightly")] in
  In ("tag_name", Json.Str "v0.5.2") members
  /\ fst (getLatestOllamaVersion (env_with_body 200 (Json.Object members)) world0)
     = ("nightly", None)
  /\ fst (getLatestOllamaVersion (env_with_body 200 (Json.Object members)) world0)
     <> ("v0.5.2", None).
Proof. simpl. split; [tauto|]. split; [reflexivity | discriminate]. Qed.

(** C5 as stated fails: the body below is a JSON object without the tag
    member, as the API sends it with status 403 when the rate limit is
    exceeded, and the resolver returns the empty version and no error. *)
Lemma getLatestOllamaVersion_fails_counterexample :
  let members := [("message", Json.Str "API rate limit exceeded")] in
  (forall key v, In (key, v) members -> key <> "tag_name")
  /\ getLatestOllamaVersion (env_with_body 403 (Json.Object members)) world0
     = ((EmptyString, None),
        {| fs := ∅; stdout := []; spawned := []; requests := [latestURL] |}).
Proof.
  split; [|reflexivity].
  intros key v [H|[]]. inversion H. discriminate.
Qed.

(** ** Lines and the scanner *)

Module ScanFacts.

Lemma split_at_nonempty c s : Str.split_at c s <> [].
Proof.
  destruct s as [|a s]; simpl; [discriminate|].
  destruct (Ascii.eqb a c); [discriminate|].
  destruct (Str.split_at c s); discriminate.
Qed.

Lemma split_at_app c a b :
  Str.split_at c (a +:+ String c b) = Str.split_at c a ++ Str.split_at c b.
Proof.
  induction a as [|x a IH]; simpl.
  - now rewrite Ascii.eqb_refl.
  - destruct (Ascii.eqb x c); [now rewrite IH|].
    rewrite IH. pose proof (split_at_nonempty c a).
    destruct (Str.split_at c a); [congruence | reflexivity].
Qed.

Lemma dropCR_app a b : b <> EmptyString -> Bufio.dropCR (a +:+ b) = a +:+ Bufio.dropCR b.
Proof.
  intros Hb. induction a as [|x a IH]; [reflexivity|].
  change (String x a +:+ b) with (String x (a +:+ b)).
  change (String x a +:+ Bufio.dropCR b) with (String x (a +:+ Bufio.dropCR b)).
  rewrite <- IH. simpl.
  destruct (a +:+ b) eqn:E; [|reflexivity].
  destruct a; simpl in E; [congruence | discriminate].
Qed.

Lemma dropCR_has_line line : has_line line -> has_line (Bufio.dropCR line).
Proof.
  intros [a [b ->]]. destruct b as [|x b].
  - exists a, EmptyString. rewrite dropCR_app by discriminate. reflexivity.
  - exists a, (Bufio.dropCR (String x b)).
    rewrite dropCR_app by discriminate.
    reflexivity.
Qed.

Lemma has_line_nonempty line : has_line line -> line <> EmptyString.
Proof. intros [a [b ->]]. destruct a; discriminate. Qed.

Lemma scan_segments_app pre : forall rest,
  rest <> [] ->
  Forall (fun l => Bufio.fits l = true) pre ->
  Bufio.scan_segments (pre ++ rest) = map Bufio.dropCR pre ++ Bufio.scan_segments rest.
Proof.
  induction pre as [|l pre IH]; intros rest Hr Hf; [reflexivity|].
  inversion Hf as [|? ? Hl Hpre]; subst.
  change ((l :: pre) ++ rest) with (l :: (pre ++ rest)).
  simpl. destruct (pre ++ rest) eqn:E.
  - destruct pre; simpl in E; [congruence | discriminate].
  - rewrite Hl, <- E, IH by assumption. reflexivity.
Qed.

Lemma scan_segments_head l post :
  l <> EmptyString -> Bufio.fits l = true ->
  exists toks, Bufio.scan_segments (l :: post) = Bufio.dropCR l :: toks.
Proof.
  intros Hne Hf. simpl. destruct post as [|p post].
  - destruct l; [congruence|]. rewrite Hf. eauto.
  - rewrite Hf. eauto.
Qed.

(** A line with the export line that the scanner reaches is found. *)
Lemma scan_finds content pre line post :
  lines content = pre ++ line :: post ->
  has_line line ->
  Forall (fun l => Bufio.fits l = true) (pre ++ [line]) ->
  existsb (fun l => Str.Contains l pathExport) (Bufio.scan content) = true.
Proof.
  intros Hl Hline Hfit. unfold Bufio.scan. unfold lines in Hl. rewrite Hl.
  apply Forall_app in Hfit as [Hpre Hone]. inversion Hone; subst.
  rewrite scan_segments_app by (assumption || discriminate).
  destruct (scan_segments_head line post) as [toks ->];
    [now apply has_line_nonempty | assumption |].
  rewrite existsb_app. apply orb_true_iff. right. simpl.
  apply orb_true_iff. left. apply StrFacts.Contains_spec.
  now apply dropCR_has_line.
Qed.

(** Conversely, what the scanner finds is in a line of the content. *)
Lemma dropCR_prefix s : exists t, s = Bufio.dropCR s +:+ t.
Proof.
  induction s as [|x s [t IH]]; [exists EmptyString; reflexivity|].
  destruct s as [|y s].
  - simpl. destruct (Ascii.eqb x cr); [eexists; reflexivity|].
    exists EmptyString. reflexivity.
  - exists t. change (Bufio.dropCR (String x (String y s)))
      with (String x (Bufio.dropCR (String y s))).
    change (String x (Bufio.dropCR (String y s)) +:+ t)
      with (String x (Bufio.dropCR (String y s) +:+ t)).
    now rewrite <- IH.
Qed.

Lemma scan_segments_sub segs : forall tok,
  In tok (Bufio.scan_segments segs) -> exists seg, In seg segs /\ tok = Bufio.dropCR seg.
Proof.
  induction segs as [|s segs IH]; intros tok H; simpl in H; [contradiction|].
  destruct segs as [|s' segs].
  - destruct s; [contradiction|]. destruct (Bufio.fits _); [|contradiction].
    destruct H as [<-|[]]. eexists; split; [left; reflexivity | reflexivity].
  - destruct (Bufio.fits s); [|contradiction].
    destruct H as [<-|H]; [eexists; split; [left; reflexivity | reflexivity]|].
    destruct (IH _ H) as [seg [Hin ->]]. exists seg. split; [now right | reflexivity].
Qed.

Lemma scan_found_counts content :
  existsb (fun l => Str.Contains l pathExport) (Bufio.scan content) = true ->
  0 < line_count content.
Proof.
  intros H. apply existsb_exists in H as [tok [Hin Hc]].
  apply scan_segments_sub in Hin as [seg [Hseg ->]].
  unfold line_count, lines.
  assert (Hs : Str.Contains seg pathExport = true).
  { apply StrFacts.Contains_spec in Hc as [a [b Hc]].
    destruct (dropCR_prefix seg) as [t Ht].
    apply StrFacts.Contains_spec. exists a, (b +:+ t).
    rewrite Ht at 1. rewrite Hc. now rewrite !StrFacts.app_assoc. }
  induction (Str.split_at "010" content) as [|x xs IH]; [contradiction|].
  rewrite filter_cons. destruct Hseg as [->|Hin].
  - rewrite decide_True by assumption. simpl. lia.
  - destruct (decide _); simpl; [lia | now apply IH].
Qed.

End ScanFacts.

(** ** Paths *)

Module PathFacts.

Import ScanFacts.

Lemma split_single c s x : Str.split_at c s = [x] -> x = s.
Proof.
  revert x. induction s as [|a s IH]; intros x; simpl.
  - congruence.
  - destruct (Ascii.eqb a c).
    + intros H. inversion H as [[H1 H2]]. now apply split_at_nonempty in H2.
    + pose proof (split_at_nonempty c s) as Hne.
      destruct (Str.split_at c s) as [|seg segs]; [congruence|].
      intros H. inversion H; subst. f_equal. now apply IH.
Qed.

Lemma split_elems c s : forall x, In x (Str.split_at c s) -> Str.split_at c x = [x].
Proof.
  induction s as [|a s IH]; intros x; simpl.
  - intros [<-|[]]. reflexivity.
  - destruct (Ascii.eqb a c) eqn:Ea.
    + intros [<-|H]; [reflexivity | now apply IH].
    + destruct (Str.split_at c s) as [|seg segs] eqn:Es; simpl.
      * intros [<-|[]]. simpl. now rewrite Ea.
      * intros [<-|H].
        -- simpl. rewrite Ea. rewrite (IH seg) by now left. reflexivity.
        -- apply IH. now right.
Qed.

Lemma Join_cons e e' rest sep :
  Str.Join (e :: e' :: rest) sep = e +:+ sep +:+ Str.Join (e' :: rest) sep.
Proof. reflexivity. Qed.

Lemma Join_snoc sep init : forall last,
  init <> [] ->
  Str.Join (init ++ [last]) sep = Str.Join init sep +:+ sep +:+ last.
Proof.
  induction init as [|e init IH]; intros last Hne; [congruence|].
  destruct init as [|e' init].
  - reflexivity.
  - change ((e :: e' :: init) ++ [last]) with (e :: e' :: (init ++ [last])).
    rewrite !Join_cons. change (e' :: init ++ [last]) with ((e' :: init) ++ [last]).
    rewrite IH by discriminate. now rewrite !StrFacts.app_assoc.
Qed.

Lemma Join_app sep xs : forall ys,
  xs <> [] -> ys <> [] ->
  Str.Join (xs ++ ys) sep = Str.Join xs sep +:+ sep +:+ Str.Join ys sep.
Proof.
  induction xs as [|e xs IH]; intros ys Hx Hy; [congruence|].
  destruct xs as [|e' xs].
  - destruct ys; [congruence | reflexivity].
  - change ((e :: e' :: xs) ++ ys) with (e :: e' :: (xs ++ ys)).
    rewrite !Join_cons. change (e' :: xs ++ ys) with ((e' :: xs) ++ ys).
    rewrite IH by (assumption || discriminate). now rewrite !StrFacts.app_assoc.
Qed.

Lemma split_Join c segs :
  Forall (fun x => Str.split_at c x = [x]) segs -> segs <> [] ->
  Str.split_at c (Str.Join segs (String c EmptyString)) = segs.
Proof.
  induction segs as [|e segs IH]; intros Hf Hne; [congruence|].
  inversion Hf; subst. destruct segs as [|e' segs]; [assumption|].
  rewrite Join_cons. change (String c EmptyString +:+ ?x) with (String c x).
  rewrite split_at_app, IH by (assumption || discriminate).
  now replace (Str.split_at c e) with [e].
Qed.

Lemma Join_split c s : Str.Join (Str.split_at c s) (String c EmptyString) = s.
Proof.
  induction s as [|a s IH]; [reflexivity|]. simpl.
  pose proof (split_at_nonempty c s) as Hne.
  destruct (Ascii.eqb_spec a c) as [->|Ha].
  - destruct (Str.split_at c s) as [|seg segs]; [congruence|].
    rewrite Join_cons, IH. reflexivity.
  - destruct (Str.split_at c s) as [|seg segs]; [congruence|].
    destruct segs as [|seg' segs].
    + simpl in *. now rewrite IH.
    + rewrite Join_cons. rewrite Join_cons in IH.
      change (String a seg +:+ ?x) with (String a (seg +:+ x)). now rewrite IH.
Qed.

(** *** Plain names and cleaning *)

Lemma plain_step r out c : plain c = true -> Filepath.clean_step r out c = c :: out.
Proof.
  unfold plain, Filepath.clean_step. rewrite !andb_true_iff, !negb_true_iff.
  intros [[[-> ->] ->] _]. reflexivity.
Qed.

Lemma plain_nosep c : plain c = true -> Str.split_at "/" c = [c].
Proof.
  unfold plain, nosep. rewrite !andb_true_iff. intros [_ H].
  destruct (Str.split_at "/" c) as [|x [|y l]] eqn:E; try discriminate.
  now rewrite (split_single _ _ _ E) in *.
Qed.

Lemma plain_not_rooted c rest : plain c = true -> Filepath.rooted (c +:+ rest) = false.
Proof.
  intros H. pose proof (plain_nosep c H) as Hs.
  unfold plain in H. rewrite !andb_true_iff, !negb_true_iff in H.
  destruct H as [[[Hne _] _] _]. destruct c as [|a c]; [discriminate|].
  unfold Filepath.rooted. simpl. destruct (Ascii.eqb_spec "/" a) as [<-|]; [|reflexivity].
  simpl in Hs. pose proof (split_at_nonempty "/" c).
  destruct (Str.split_at "/" c); congruence.
Qed.

Lemma fold_plain r names : forall out,
  Forall (fun c => plain c = true) names ->
  fold_left (Filepath.clean_step r) names out = rev names ++ out.
Proof.
  induction names as [|c names IH]; intros out Hf; [reflexivity|].
  inversion Hf; subst. simpl. rewrite plain_step, IH by assumption.
  now rewrite <- app_assoc.
Qed.

Lemma step_good r out seg :
  Str.split_at "/" seg = [seg] -> good_stack r out ->
  good_stack r (Filepath.clean_step r out seg).
Proof.
  intros Hseg (k & names & -> & Hn & Hr). unfold Filepath.clean_step.
  destruct (String.eqb_spec seg EmptyString) as [->|H1]; [simpl; exists k, names; auto|].
  destruct (String.eqb_spec seg ".") as [->|H2]; [simpl; exists k, names; auto|].
  simpl. destruct (String.eqb_spec seg "..") as [->|H3].
  - destruct names as [|n names]; simpl.
    + destruct k as [|k]; simpl.
      * destruct r; [exists 0, []; auto | exists 1, []; repeat split; auto; discriminate].
      * exists (S (S k)), []. repeat split; auto. intros Hrt. specialize (Hr Hrt). discriminate.
    + inversion Hn as [|? ? Hp Hn']; subst.
      destruct (String.eqb_spec n "..") as [->|_]; [discriminate Hp|].
      exists k, names. auto.
  - exists k, (seg :: names). repeat split; auto.
    constructor; [|assumption]. unfold plain, nosep. rewrite Hseg.
    apply String.eqb_neq in H1, H2, H3. now rewrite H1, H2, H3.
Qed.

Lemma fold_good r segs : forall out,
  Forall (fun seg => Str.split_at "/" seg = [seg]) segs -> good_stack r out ->
  good_stack r (fold_left (Filepath.clean_step r) segs out).
Proof.
  induction segs as [|seg segs IH]; intros out Hf Hg; [assumption|].
  inversion Hf; subst. simpl. apply IH; [assumption|]. now apply step_good.
Qed.

Lemma components_good r path :
  good_stack r (rev (Filepath.components r path)).
Proof.
  unfold Filepath.components. rewrite rev_involutive. apply fold_good.
  - apply List.Forall_forall. intros x Hx. now apply (split_elems "/" path).
  - exists 0, []. auto.
Qed.

Lemma fold_dots k : forall j,
  fold_left (Filepath.clean_step false) (repeat ".." k) (repeat ".." j) = repeat ".." (k + j).
Proof.
  induction k as [|k IH]; intros j; [reflexivity|]. simpl fold_left.
  replace (Filepath.clean_step false (repeat ".." j) "..") with (repeat ".." (S j)).
  - rewrite IH. f_equal. lia.
  - destruct j; reflexivity.
Qed.

Lemma rev_repeat {A} (x : A) k : rev (repeat x k) = repeat x k.
Proof.
  induction k as [|k IH]; [reflexivity|]. simpl. rewrite IH.
  clear IH. induction k as [|k IH]; [reflexivity|]. simpl. now rewrite IH.
Qed.

(** Cleaning the components of a cleaned path gives them back. *)
Lemma fold_good_stack r out :
  good_stack r out -> fold_left (Filepath.clean_step r) (rev out) [] = out.
Proof.
  intros (k & names & -> & Hn & Hr). rewrite rev_app_distr, rev_repeat, fold_left_app.
  assert (Hd : fold_left (Filepath.clean_step r) (repeat ".." k) [] = repeat ".." k).
  { destruct r.
    - rewrite (Hr eq_refl). reflexivity.
    - change (@nil string) with (repeat ".." 0) at 1.
      rewrite (fold_dots k 0). f_equal. lia. }
  rewrite Hd, fold_plain, rev_involutive; [reflexivity|].
  apply List.Forall_forall. intros x Hx. rewrite <- in_rev in Hx.
  rewrite List.Forall_forall in Hn. auto.
Qed.

Lemma good_nosep r out x : good_stack r out -> In x out -> Str.split_at "/" x = [x].
Proof.
  intros (k & names & -> & Hn & _) Hx. apply in_app_or in Hx as [Hx|Hx].
  - rewrite List.Forall_forall in Hn. now apply plain_nosep, Hn.
  - apply repeat_spec in Hx as ->. reflexivity.
Qed.

Lemma good_first_not_rooted out c cs rest :
  good_stack false out -> rev out = c :: cs -> Filepath.rooted (c +:+ rest) = false.
Proof.
  intros (k & names & -> & Hn & _) Hrev.
  rewrite rev_app_distr, rev_repeat in Hrev. destruct k as [|k]; simpl in Hrev.
  - apply plain_not_rooted. rewrite List.Forall_forall in Hn. apply Hn.
    apply in_rev. rewrite Hrev. now left.
  - inversion Hrev; subst. reflexivity.
Qed.

(** [render] and [components] are inverse on cleaned component lists. *)
Lemma render_components r comps :
  good_stack r (rev comps) ->
  Filepath.rooted (Filepath.render r comps) = r /\
  Filepath.components r (Filepath.render r comps) = comps.
Proof.
  intros Hg.
  assert (Hsplit : comps <> [] ->
            Str.split_at "/" (Str.Join comps "/") = comps).
  { intros Hne. apply split_Join; [|assumption]. apply List.Forall_forall.
    intros x Hx. apply (good_nosep r (rev comps)); [assumption|]. now apply in_rev in Hx. }
  pose proof (fold_good_stack r (rev comps) Hg) as Hfold. rewrite rev_involutive in Hfold.
  unfold Filepath.render, Filepath.components. destruct r.
  - split; [reflexivity|].
    destruct comps as [|c cs]; [reflexivity|].
    change ("/" +:+ ?x) with (EmptyString +:+ String "/" x).
    rewrite split_at_app, Hsplit by discriminate.
    change (fold_left (Filepath.clean_step true) (Str.split_at "/" EmptyString ++ c :: cs) [])
      with (fold_left (Filepath.clean_step true) (c :: cs) []).
    rewrite Hfold. apply rev_involutive.
  - destruct comps as [|c cs]; [split; reflexivity|].
    split.
    + destruct cs as [|c' cs].
      * simpl. rewrite <- (StrFacts.app_nil_r c).
        apply (good_first_not_rooted (rev [c]) c []); [assumption | reflexivity].
      * rewrite Join_cons.
        apply (good_first_not_rooted (rev (c :: c' :: cs)) c (c' :: cs));
          [assumption | now rewrite rev_involutive].
    + rewrite Hsplit by discriminate. rewrite Hfold. apply rev_involutive.
Qed.

Lemma rooted_app p rest : p <> EmptyString -> Filepath.rooted (p +:+ rest) = Filepath.rooted p.
Proof. destruct p as [|a p]; [congruence|]. intros _. unfold Filepath.rooted. simpl.
  destruct (Ascii.eqb "/" a); reflexivity. Qed.

Lemma Join_names_nonempty names rest :
  Forall (fun c => plain c = true) names -> names <> [] ->
  Str.Join names "/" +:+ rest <> EmptyString.
Proof.
  intros Hf Hne. destruct names as [|c names]; [congruence|]. inversion Hf; subst.
  assert (c <> EmptyString) by (intros ->; discriminate).
  destruct c; [congruence|]. destruct names; discriminate.
Qed.

(** Cleaning a non-empty path followed by plain names. *)
Lemma Clean_extend p names :
  p <> EmptyString -> Forall (fun c => plain c = true) names -> names <> [] ->
  Filepath.Clean (p +:+ "/" +:+ Str.Join names "/") =
  Filepath.render (Filepath.rooted p) (Filepath.components (Filepath.rooted p) p ++ names).
Proof.
  intros Hp Hf Hne. unfold Filepath.Clean. rewrite rooted_app by assumption.
  f_equal. unfold Filepath.components.
  change ("/" +:+ ?x) with (String "/" x).
  rewrite split_at_app, fold_left_app.
  rewrite split_Join; [|apply List.Forall_forall; intros x Hx; apply plain_nosep;
                         rewrite List.Forall_forall in Hf; auto | assumption].
  rewrite fold_plain by assumption. now rewrite rev_app_distr, rev_involutive.
Qed.

Lemma render_app r comps names :
  names <> [] ->
  Filepath.render r (comps ++ names) =
  (if r then "/" else EmptyString) +:+
  match comps with [] => EmptyString | _ => Str.Join comps "/" +:+ "/" end +:+
  Str.Join names "/".
Proof.
  intros Hne. unfold Filepath.render. destruct comps as [|c comps].
  - destruct r; [reflexivity|]. destruct names; [congruence | reflexivity].
  - rewrite Join_app by (assumption || discriminate).
    destruct r; simpl; now rewrite ?StrFacts.app_assoc.
Qed.

Lemma home_good homeDir : good_stack (home_rooted homeDir) (rev (home_comps homeDir)).
Proof.
  unfold home_rooted, home_comps. destruct (String.eqb homeDir EmptyString).
  - exists 0, []. auto.
  - apply components_good.
Qed.

Lemma render_dirprefix homeDir names :
  names <> [] ->
  Filepath.render (home_rooted homeDir) (home_comps homeDir ++ names) =
  dirprefix homeDir +:+ Str.Join names "/".
Proof.
  intros Hne. rewrite render_app by assumption. unfold dirprefix.
  rewrite StrFacts.app_assoc. now destruct (home_comps homeDir).
Qed.

Lemma extend_good r comps names :
  good_stack r (rev comps) -> Forall (fun c => plain c = true) names ->
  good_stack r (rev (comps ++ names)).
Proof.
  intros (k & ns & E & Hn & Hr) Hf. exists k, (rev names ++ ns).
  rewrite rev_app_distr, E, <- app_assoc. repeat split; auto.
  apply Forall_app. split; [|assumption].
  apply List.Forall_forall. intros x Hx. rewrite <- in_rev in Hx.
  rewrite List.Forall_forall in Hf. auto.
Qed.

Lemma Join_first e rest :
  e <> EmptyString -> Filepath.Join (e :: rest) = Filepath.Clean (Str.Join (e :: rest) "/").
Proof.
  intros He. apply String.eqb_neq in He. unfold Filepath.Join. now rewrite He.
Qed.

Lemma Join_skip rest : Filepath.Join (EmptyString :: rest) = Filepath.Join rest.
Proof. reflexivity. Qed.

Lemma plain_nonempty c : plain c = true -> c <> EmptyString.
Proof. intros H ->. discriminate. Qed.

(** Joining a home directory and plain names. *)
Lemma Join_home homeDir names :
  Forall (fun c => plain c = true) names -> names <> [] ->
  Filepath.Join (homeDir :: names) = dirprefix homeDir +:+ Str.Join names "/".
Proof.
  intros Hf Hne. rewrite <- render_dirprefix by assumption.
  unfold home_rooted, home_comps.
  destruct (String.eqb_spec homeDir EmptyString) as [->|Hh].
  - destruct names as [|c names]; [congruence|]. inversion Hf; subst.
    rewrite Join_skip, Join_first by now apply plain_nonempty.
    unfold Filepath.Clean.
    assert (Hr : Filepath.rooted (Str.Join (c :: names) "/") = false).
    { destruct names; [rewrite <- (StrFacts.app_nil_r c) | rewrite Join_cons];
        now apply plain_not_rooted. }
    rewrite Hr. f_equal. unfold Filepath.components.
    rewrite split_Join; [| apply List.Forall_forall; intros x Hx; apply plain_nosep;
                           rewrite List.Forall_forall in Hf; auto | discriminate].
    rewrite fold_plain by assumption. now rewrite app_nil_r, rev_involutive.
  - rewrite Join_first by assumption.
    destruct names as [|c names]; [congruence|].
    rewrite Join_cons. now apply Clean_extend.
Qed.

(** Joining a path that was joined from the home directory with more
    names. *)
Lemma Join_home_twice homeDir names more :
  Forall (fun c => plain c = true) names -> names <> [] ->
  Forall (fun c => plain c = true) more -> more <> [] ->
  Filepath.Join (Filepath.Join (homeDir :: names) :: more) =
  dirprefix homeDir +:+ Str.Join (names ++ more) "/".
Proof.
  intros Hf Hne Hg Hme. rewrite (Join_home homeDir names) by assumption.
  rewrite <- !render_dirprefix
    by (assumption || (destruct names; [congruence | discriminate])).
  set (r := home_rooted homeDir). set (comps := home_comps homeDir).
  assert (Hgood : good_stack r (rev (comps ++ names)))
    by (apply extend_good; [apply home_good | assumption]).
  destruct (render_components r (comps ++ names) Hgood) as [Hr Hc].
  assert (Hp : Filepath.render r (comps ++ names) <> EmptyString).
  { unfold Filepath.render. destruct r; [discriminate|].
    destruct (comps ++ names) as [|c0 l0] eqn:E; [discriminate|]. rewrite <- E.
    destruct names as [|n names]; [congruence|]. inversion Hf; subst.
    destruct comps as [|c1 comps].
    - rewrite <- (StrFacts.app_nil_r (Str.Join _ _)).
      apply Join_names_nonempty; [now constructor | discriminate].
    - rewrite Join_app by discriminate. rewrite <- StrFacts.app_assoc.
      intros Habs. destruct (Str.Join (c1 :: comps) "/" +:+ "/") eqn:E1; [|discriminate].
      destruct (Str.Join (c1 :: comps) "/"); discriminate. }
  rewrite Join_first by assumption.
  destruct more as [|m more]; [congruence|]. rewrite Join_cons.
  rewrite Clean_extend by assumption. rewrite Hr, Hc. now rewrite <- app_assoc.
Qed.

End PathFacts.

(** ** PATH Updater *)

Module UpdateFacts.

Section WithEnv.

Variable env : Env.

Lemma lineExists_spec homeDir files w :
  lineExists homeDir files w =
  (existsb (fun name => visible (fs w) (Filepath.Join [homeDir; name])) files, w).
Proof.
  induction files as [|name rest IH]; [reflexivity|].
  simpl existsb. unfold visible at 1.
  change (lineExists homeDir (name :: rest) w) with
    (let '(fe, w') := Os.Open (Filepath.Join [homeDir; name]) w in
     (let '(file, err) := fe in
      match err with
      | None =>
          if existsb (fun line => Str.Contains line pathExport) (scanner_tokens file)
          then mret true
          else lineExists homeDir rest
      | Some _ => lineExists homeDir rest
      end) w').
  unfold Os.Open.
  destruct (fs w !! Filepath.Join [homeDir; name]) as [[c [|] wr|wr]|]; simpl; try exact IH.
  destruct (existsb _ (Bufio.scan c)); [reflexivity | exact IH].
Qed.

(** What [appendToFile] does to the world. *)
Lemma appendToFile_cases path data w :
  let r := appendToFile env path data w in
  stdout (snd r) = stdout w /\ spawned (snd r) = spawned w /\
  requests (snd r) = requests w /\
  (forall p, p <> path -> fs (snd r) !! p = fs w !! p) /\
  ((fst r = None /\ write_ok env path = true /\
    extended_by (nl +:+ data +:+ nl) (fs w !! path) (fs (snd r) !! path))
   \/
   (fst r <> None /\
    (snd r = w \/
     (write_ok env path = false /\
      extended_by (Os.short env path (nl +:+ data +:+ nl))
                  (fs w !! path) (fs (snd r) !! path))))).
Proof.
  unfold appendToFile, mbind, M_bind, mret, M_ret, Os.OpenAppend, Os.WriteString.
  destruct (fs w !! path) as [[c rd [|]|wr]|] eqn:E; simpl.
  - destruct (write_ok env path) eqn:Ew; simpl.
    + do 3 (split; [reflexivity|]). split.
      * intros p Hp. now rewrite lookup_alter_ne by congruence.
      * left. do 2 (split; [reflexivity|]).
        exists c, rd, true. split; [now left|]. now rewrite lookup_alter_eq, E.
    + do 3 (split; [reflexivity|]). split.
      * intros p Hp. now rewrite lookup_alter_ne by congruence.
      * right. split; [discriminate|]. right. split; [reflexivity|].
        exists c, rd, true. split; [now left|]. now rewrite lookup_alter_eq, E.
  - repeat split; try reflexivity. right. split; [discriminate | now left].
  - repeat split; try reflexivity. right. split; [discriminate | now left].
  - destruct (fs w !! Filepath.Dir path) as [[c rd wr|[|]]|] eqn:Ed; simpl;
      try (repeat split; try reflexivity; right; split; [discriminate | now left]).
    destruct (write_ok env path) eqn:Ew; simpl.
    + do 3 (split; [reflexivity|]). split.
      * intros p Hp. now rewrite lookup_alter_ne, lookup_insert_ne by congruence.
      * left. do 2 (split; [reflexivity|]).
        exists EmptyString, true, true. split; [now right|].
        now rewrite lookup_alter_eq, lookup_insert_eq.
    + do 3 (split; [reflexivity|]). split.
      * intros p Hp. now rewrite lookup_alter_ne, lookup_insert_ne by congruence.
      * right. split; [discriminate|]. right. split; [reflexivity|].
        exists EmptyString, true, true. split; [now right|].
        now rewrite lookup_alter_eq, lookup_insert_eq.
Qed.

Lemma fileExists_spec path w :
  fileExists path w = (match fs w !! path with Some _ => true | None => false end, w).
Proof. unfold fileExists, mbind, M_bind, Os.Stat. now destruct (fs w !! path). Qed.

(** The source's sequence of attempts is the one of [first_append]. *)
Lemma updatePath_refines homeDir w :
  updatePath env homeDir w = updatePath_spec env homeDir w.
Proof.
  unfold updatePath, updatePath_spec, mbind, M_bind, mret, M_ret.
  rewrite lineExists_spec.
  destruct (existsb _ configFiles); [reflexivity|].
  rewrite fileExists_spec.
  unfold candidates, first_append, mret, M_ret.
  destruct (fs w !! Filepath.Join [homeDir; ".zshrc"]) as [n|] eqn:Ez.
  - destruct (appendToFile env (Filepath.Join [homeDir; ".zshrc"]) pathExport w)
      as [[e|] w1]; [|reflexivity].
    destruct (appendToFile env (Filepath.Join [homeDir; ".bash_profile"]) pathExport w1)
      as [[e2|] w2]; [|reflexivity].
    destruct (appendToFile env (Filepath.Join [homeDir; ".bashrc"]) pathExport w2)
      as [[e3|] w3]; [|reflexivity].
    destruct (appendToFile env (Filepath.Join [homeDir; ".profile"]) pathExport w3)
      as [[e4|] w4]; reflexivity.
  - destruct (appendToFile env (Filepath.Join [homeDir; ".bash_profile"]) pathExport w)
      as [[e2|] w2]; [|reflexivity].
    destruct (appendToFile env (Filepath.Join [homeDir; ".bashrc"]) pathExport w2)
      as [[e3|] w3]; [|reflexivity].
    destruct (appendToFile env (Filepath.Join [homeDir; ".profile"]) pathExport w3)
      as [[e4|] w4]; reflexivity.
Qed.


(** The outcome of the attempts of [first_append] on candidates with
    different paths whose names are printed as they are. *)
Lemma first_append_outcome homeDir cands :
  List.NoDup (map (fun name => Filepath.Join [homeDir; name]) (map fst cands)) ->
  (forall name, In name (map fst cands) ->
     Fmt.Sprintf (updatedLine name) [] = updatedLine name) ->
  forall w r w1,
    first_append env homeDir cands w = (r, w1) ->
    attempts_outcome env homeDir (map fst cands) w r w1.
Proof.
  induction cands as [|[name flag] rest IH]; intros Hnd Hfmt w r w1 H.
  - inversion H; subst. repeat split. intros p. now left.
  - simpl in Hnd. inversion Hnd as [|? ? Hq Hnd']; subst.
    assert (Hfmt' : forall n, In n (map fst rest) ->
              Fmt.Sprintf (updatedLine n) [] = updatedLine n)
      by (intros n Hn; apply Hfmt; now right).
    specialize (IH Hnd' Hfmt').
    simpl in H. set (q := Filepath.Join [homeDir; name]) in *.
    assert (Hskip : first_append env homeDir rest w = (r, w1) ->
              attempts_outcome env homeDir (map fst ((name, flag) :: rest)) w r w1).
    { intros H'. destruct (IH _ _ _ H') as (Hs & Hr & Hf & Hres).
      split; [exact Hs|]. split; [exact Hr|]. split.
      - intros p Hp. apply Hf. intros Hin. apply Hp. now right.
      - destruct r; [assumption|]. destruct Hres as (n & Hn & Hrest).
        exists n. split; [now right | assumption]. }
    assert (Htry :
      (let '(a, w') := appendToFile env q pathExport w in
       match a with
       | None => (None, snd (Os.Printf ("Updated " +:+ name +:+ " with PATH export" +:+ nl) [] w'))
       | Some _ => first_append env homeDir rest w'
       end) = (r, w1) ->
      attempts_outcome env homeDir (map fst ((name, flag) :: rest)) w r w1).
    { clear H Hskip. intros H.
      pose proof (appendToFile_cases q pathExport w) as Hcases. simpl in Hcases.
      destruct (appendToFile env q pathExport w) as [a w'] eqn:Ea. simpl in Hcases.
      destruct Hcases as (Hso & Hsp & Hrq & Hframe & [(-> & _ & Hext)|(Ha & Hw')]).
      - inversion H; subst r w1.
        split; [exact Hsp|]. split; [exact Hrq|]. split.
        + intros p Hp. apply Hframe. intros ->. apply Hp. now left.
        + exists name. split; [now left|]. split.
          * match goal with
            | |- ?l = _ => change l with (stdout w' ++ [Fmt.Sprintf (updatedLine name) []])
            end.
            rewrite Hfmt by now left. now rewrite Hso.
          * split; [exact Hext|]. intros p Hp. left. now apply Hframe.
      - destruct a as [e|]; [|congruence].
        assert (Hk : failed_append env q (fs w !! q) (fs w' !! q)).
        { destruct Hw' as [->|[_ Hext]]; [now left | now right]. }
        destruct (IH _ _ _ H) as (Hs & Hr & Hf & Hres).
        assert (Hq1 : fs w1 !! q = fs w' !! q) by (apply Hf; exact Hq).
        assert (Hall : forall p, failed_append env p (fs w' !! p) (fs w1 !! p) ->
                                 failed_append env p (fs w !! p) (fs w1 !! p)).
        { intros p Hp. destruct (decide (p = q)) as [->|Hne].
          - now rewrite Hq1.
          - now rewrite <- (Hframe p Hne). }
        split; [congruence|]. split; [congruence|]. split.
        + intros p Hp. rewrite Hf by (intros Hin; apply Hp; now right).
          apply Hframe. intros ->. apply Hp. now left.
        + destruct r as [e'|].
          * destruct Hres as (-> & Hst & Hfail). split; [reflexivity|].
            split; [congruence|]. intros p. apply Hall, Hfail.
          * destruct Hres as (n & Hn & Hst & Hext & Hothers).
            assert (Hnq : Filepath.Join [homeDir; n] <> q).
            { intros Heq. apply Hq. rewrite <- Heq.
              now apply (in_map (fun name => Filepath.Join [homeDir; name])). }
            exists n. split; [now right|]. split; [congruence|]. split.
            -- now rewrite <- (Hframe _ Hnq).
            -- intros p Hp. now apply Hall, Hothers. }
    destruct flag; [destruct (fs w !! q)|]; auto.
Qed.

End WithEnv.

End UpdateFacts.

Module CountFacts.

Import ScanFacts PathFacts.

Lemma lines_appended content :
  lines (content +:+ exportText) = lines content ++ [pathExport; EmptyString].
Proof.
  unfold lines, exportText, nl.
  change (String "010" EmptyString +:+ ?x) with (String "010" x).
  rewrite split_at_app.
  change (pathExport +:+ String "010" EmptyString) with (pathExport +:+ String "010" EmptyString).
  rewrite split_at_app. reflexivity.
Qed.

Lemma line_count_appended content :
  line_count (content +:+ exportText) = S (line_count content).
Proof.
  unfold line_count. rewrite lines_appended, filter_app, length_app.
  change (length (filter _ [pathExport; EmptyString])) with 1. lia.
Qed.

Lemma visible_counts files path : visible files path = true -> 0 < file_count files path.
Proof.
  unfold visible, file_count. destruct (files !! path) as [[c [|] wr|]|]; try discriminate.
  apply scan_found_counts.
Qed.


Lemma sum_ge {A} (g : A -> nat) l x : In x l -> g x <= list_sum (map g l).
Proof.
  induction l as [|y l IH]; [contradiction|]. simpl. intros [->|H]; [lia|].
  specialize (IH H). lia.
Qed.



Lemma count_le_occurrences homeDir files name :
  In name configFiles ->
  file_count files (Filepath.Join [homeDir; name]) <= occurrences homeDir files.
Proof.
  intros H. unfold occurrences.
  exact (sum_ge (fun n => file_count files (Filepath.Join [homeDir; n])) configFiles name H).
Qed.

Lemma configFiles_plain name : In name configFiles -> plain name = true.
Proof. intros [<-|[<-|[<-|[<-|[]]]]]; reflexivity. Qed.

Lemma configFiles_nodup : List.NoDup configFiles.
Proof.
  repeat constructor; simpl; intros H;
    repeat (destruct H as [H|H]; [discriminate|]); exact H.
Qed.

Lemma candidate_path homeDir name :
  In name configFiles -> Filepath.Join [homeDir; name] = dirprefix homeDir +:+ name.
Proof.
  intros H. rewrite (Join_home homeDir [name]); [reflexivity | | discriminate].
  constructor; [now apply configFiles_plain | constructor].
Qed.

Lemma candidate_inj homeDir a b :
  In a configFiles -> In b configFiles ->
  Filepath.Join [homeDir; a] = Filepath.Join [homeDir; b] -> a = b.
Proof.
  intros Ha Hb. rewrite !candidate_path by assumption. apply String.app_inj.
Qed.

Lemma candidate_paths_nodup homeDir :
  List.NoDup (map (fun name => Filepath.Join [homeDir; name]) configFiles).
Proof.
  assert (H : forall names, List.NoDup names -> (forall n, In n names -> In n configFiles) ->
            List.NoDup (map (fun name => Filepath.Join [homeDir; name]) names)).
  { induction names as [|a names IH]; intros Hnd Hsub; [constructor|].
    inversion Hnd as [|? ? Hnotin Hnd']; subst. simpl. constructor.
    - intros Hin. apply in_map_iff in Hin as (b & Hb & Hin). apply Hnotin.
      rewrite <- (candidate_inj homeDir b a); auto; apply Hsub; [now right | now left].
    - apply IH; [assumption|]. intros n Hn. apply Hsub. now right. }
  apply H; [apply configFiles_nodup | auto].
Qed.

Lemma updatedLine_plain name :
  In name configFiles -> Fmt.Sprintf (updatedLine name) [] = updatedLine name.
Proof. intros [<-|[<-|[<-|[<-|[]]]]]; reflexivity. Qed.

(** The outcome of the attempts of [updatePath]. *)
Lemma candidates_outcome env homeDir w r w1 :
  first_append env homeDir candidates w = (r, w1) ->
  attempts_outcome env homeDir configFiles w r w1.
Proof.
  apply (UpdateFacts.first_append_outcome env homeDir candidates).
  - apply candidate_paths_nodup.
  - apply updatedLine_plain.
Qed.

(** A text appended with [appendToFile] is read back as a line of its
    own. *)
Lemma scan_appended content data :
  Str.split_at "010" data = [data] ->
  Bufio.fits data = true ->
  Forall (fun l => Bufio.fits l = true) (lines content) ->
  Bufio.scan (content +:+ nl +:+ data +:+ nl) = map Bufio.dropCR (lines content ++ [data]).
Proof.
  intros Hline Hfit Hfits. unfold Bufio.scan, nl.
  change (String "010" EmptyString +:+ ?x) with (String "010" x).
  rewrite split_at_app.
  change (data +:+ String "010" EmptyString) with (data +:+ String "010" EmptyString).
  rewrite split_at_app, Hline. fold (lines content).
  change (Str.split_at "010" EmptyString) with [EmptyString].
  rewrite (app_assoc (lines content) [data] [EmptyString]).
  rewrite scan_segments_app; [simpl; now rewrite app_nil_r | discriminate |].
  apply Forall_app. split; [assumption | now repeat constructor].
Qed.

(** The bytes of a write that has failed are a proper prefix of its data. *)
Lemma take_proper : forall k s,
  k < String.length s -> exists rest, rest <> EmptyString /\ s = Str.take k s +:+ rest.
Proof.
  induction k as [|k IH]; intros [|a s] Hk; simpl in Hk; try lia.
  - exists (String a s). split; [discriminate | reflexivity].
  - destruct (IH s) as (rest & Hne & Hs); [lia|].
    exists rest. split; [assumption|]. simpl. now rewrite <- Hs.
Qed.

Lemma short_proper env path data :
  data <> EmptyString -> proper_prefix (Os.short env path data) data.
Proof.
  intros Hne. unfold Os.short. apply take_proper.
  destruct data as [|a data]; [congruence|]. simpl. lia.
Qed.

Lemma short_nothing env path data :
  short_write env path = 0 -> Os.short env path data = EmptyString.
Proof. intros H. unfold Os.short. rewrite H. reflexivity. Qed.

Lemma proper_prefix_shorter part text :
  proper_prefix part text -> String.length part < String.length text.
Proof.
  intros (rest & Hne & ->). rewrite StrFacts.length_app.
  destruct rest; [congruence | simpl; lia].
Qed.

(** An append that has failed has not added the whole export text. *)
Lemma failed_not_whole env path old new :
  failed_append env path old new -> ~ extended_by exportText old new.
Proof.
  intros Hfail (c & r & wr & Hold & Hnew).
  assert (Hlen : forall c' added r' wr',
            (old = Some (File c' r' wr') \/ (old = None /\ c' = EmptyString)) ->
            new = Some (File (c' +:+ added) r' wr') ->
            String.length added = String.length exportText).
  { intros c' added r' wr' Hold' Hnew'. rewrite Hnew in Hnew'. inversion Hnew' as [Hc].
    assert (c' = c) as ->.
    { destruct Hold as [Ho|[Ho ->]]; destruct Hold' as [Ho'|[Ho' ->]]; congruence. }
    apply String.app_inj in Hc. now rewrite <- Hc. }
  destruct Hfail as [->|(c' & r' & wr' & Hold' & Hnew')].
  - destruct Hold as [Ho|[Ho _]]; [|congruence].
    specialize (Hlen c EmptyString r wr (or_introl Ho)).
    rewrite StrFacts.app_nil_r in Hlen. specialize (Hlen Ho). discriminate.
  - pose proof (Hlen _ _ _ _ Hold' Hnew') as Hl.
    pose proof (proper_prefix_shorter _ _
                  (short_proper env path exportText ltac:(discriminate))) as Hs.
    lia.
Qed.

(** An append that has failed without writing a byte leaves the count of a
    file as it was. *)
Lemma failed_count env path files files' :
  short_write env path = 0 ->
  failed_append env path (files !! path) (files' !! path) ->
  file_count files' path = file_count files path.
Proof.
  intros Hz [H|(c & r & wr & Hold & Hnew)]; unfold file_count.
  - now rewrite H.
  - rewrite Hnew, (short_nothing env path _ Hz), StrFacts.app_nil_r.
    destruct Hold as [->|[-> ->]]; reflexivity.
Qed.

End CountFacts.

Section Updater.

Import UpdateFacts CountFacts ScanFacts.

Variable env : Env.

(** C10, as amended: when a candidate file can be opened for reading and
    one of its lines contains the export line as a substring, alone or
    inside a longer or commented-out line, and this line and the lines
    before it fit the scanner's buffer, [updatePath] reports success and
    leaves the world as it is: no file is written and nothing is printed. *)
Theorem updatePath_detects (homeDir : string) (w : World) (name content : string)
    (wr : bool) (pre : list string) (line : string) (post : list string) :
  In name configFiles ->
  fs w !! Filepath.Join [homeDir; name] = Some (File content true wr) ->
  lines content = pre ++ line :: post ->
  has_line line ->
  Forall (fun l => Bufio.fits l = true) (pre ++ [line]) ->
  updatePath env homeDir w = (None, w).
Proof.
  intros Hin Hfile Hlines Hline Hfit.
  rewrite updatePath_refines. unfold updatePath_spec.
  replace (existsb _ configFiles) with true; [reflexivity|].
  symmetry. apply existsb_exists. exists name. split; [assumption|].
  unfold visible. rewrite Hfile. now apply (scan_finds content pre line post).
Qed.




End Updater.

Lemma updatePath_detects_witness :
  let w := home_world [("/home/u/.bashrc", File commented_bashrc true true)] in
  updatePath env_ok "/home/u" w = (None, w).
Proof.
  apply (updatePath_detects env_ok "/home/u" _ ".bashrc" commented_bashrc true
           ["# my bashrc"] ("# " +:+ pathExport +:+ " # disabled") [EmptyString]).
  - simpl. tauto.
  - reflexivity.
  - reflexivity.
  - exists "# ", " # disabled". reflexivity.
  - repeat constructor.
Defined.

(** C10 as stated fails: [.zshrc] holds the export line but cannot be
    opened for reading; [updatePath] passes it over in its check, finds that
    it exists, and appends the export text to it. *)
Lemma updatePath_detects_counterexample :
  let w := home_world [("/home/u/.zshrc", unreadable_zshrc)] in
  let r := updatePath env_ok "/home/u" w in
  fs w !! "/home/u/.zshrc" = Some (File (pathExport +:+ nl) false true)
  /\ In pathExport (lines (pathExport +:+ nl))
  /\ has_line pathExport
  /\ fst r = None
  /\ fs (snd r) !! "/home/u/.zshrc" = Some (File (pathExport +:+ nl +:+ exportText) false true)
  /\ fs (snd r) !! "/home/u/.zshrc" <> fs w !! "/home/u/.zshrc".
Proof.
  simpl. repeat split; try reflexivity.
  - now left.
  - exists EmptyString, EmptyString. reflexivity.
  - vm_compute. discriminate.
Qed.







(** ** Installer *)

Module OsFacts.

Import ScanFacts PathFacts.

Lemma HasPrefix_refl s : Str.HasPrefix s s = true.
Proof. apply StrFacts.HasPrefix_spec. exists EmptyString. now rewrite StrFacts.app_nil_r. Qed.

Lemma HasPrefix_trans p d q :
  Str.HasPrefix p d = true -> Str.HasPrefix d q = true -> Str.HasPrefix p q = true.
Proof.
  rewrite !StrFacts.HasPrefix_spec. intros [r1 ->] [r2 ->].
  exists (r2 +:+ r1). now rewrite StrFacts.app_assoc.
Qed.

Lemma HasPrefix_app_same d a b : Str.HasPrefix (d +:+ a) (d +:+ b) = Str.HasPrefix a b.
Proof.
  induction d as [|x d IH]; [reflexivity|]. simpl. now rewrite Ascii.eqb_refl.
Qed.

Lemma eqb_app_same d a b : String.eqb (d +:+ a) (d +:+ b) = String.eqb a b.
Proof.
  destruct (String.eqb_spec a b) as [->|Hne]; [apply String.eqb_refl|].
  apply String.eqb_neq. intros H. now apply String.app_inj in H.
Qed.

(** The directory of a path is a prefix of the path. *)
Lemma Dir_prefix p : Filepath.Dir p <> "." -> Str.HasPrefix p (Filepath.Dir p) = true.
Proof.
  unfold Filepath.Dir. pose proof (Join_split "/" p) as Hj.
  pose proof (split_at_nonempty "/" p) as Hne.
  rewrite (app_removelast_last EmptyString Hne) in Hj.
  set (x := List.last (Str.split_at "/" p) EmptyString) in *.
  destruct (removelast (Str.split_at "/" p)) as [|e [|e' l]]; [congruence| |]; intros _.
  - destruct e as [|a e].
    + rewrite <- Hj. reflexivity.
    + rewrite <- Hj. apply StrFacts.HasPrefix_spec. exists ("/" +:+ x). reflexivity.
  - destruct e; rewrite <- Hj at 1; rewrite Join_snoc by discriminate;
      apply StrFacts.HasPrefix_spec; exists ("/" +:+ x); reflexivity.
Qed.

Lemma same_io_refl w : same_io w w.
Proof. repeat split. Qed.

Lemma same_io_set_fs f w : same_io w (set_fs f w).
Proof. repeat split. Qed.

Lemma same_io_trans a b c : same_io a b -> same_io b c -> same_io a c.
Proof. unfold same_io. intros (-> & -> & ->) (-> & -> & ->). auto. Qed.

Lemma Mkdir_io path w : same_io w (snd (Os.Mkdir path w)).
Proof.
  unfold Os.Mkdir. destruct (fs w !! path); [apply same_io_refl|].
  destruct (fs w !! Filepath.Dir path) as [[? ? ?|[|]]|];
    simpl; auto using same_io_refl, same_io_set_fs.
Qed.

Lemma Mkdir_frame path w q :
  q <> path -> fs (snd (Os.Mkdir path w)) !! q = fs w !! q.
Proof.
  intros Hq. unfold Os.Mkdir. destruct (fs w !! path); [reflexivity|].
  destruct (fs w !! Filepath.Dir path) as [[? ? ?|[|]]|]; simpl; try reflexivity.
  now rewrite lookup_insert_ne by congruence.
Qed.

Lemma MkdirAll_rec_io fuel : forall path w, same_io w (snd (Os.MkdirAll_rec fuel path w)).
Proof.
  induction fuel as [|fuel IH]; intros path w; simpl;
    destruct (fs w !! path) as [[? ? ?|?]|]; try apply same_io_refl;
    destruct (_ || _); try apply Mkdir_io; try apply same_io_refl.
  pose proof (IH (Filepath.Dir path) w) as Hp.
  destruct (Os.MkdirAll_rec fuel (Filepath.Dir path) w) as [[e|] w']; [exact Hp|].
  eapply same_io_trans; [exact Hp | apply Mkdir_io].
Qed.

Lemma MkdirAll_rec_frame fuel : forall path w q,
  Str.HasPrefix path q = false ->
  fs (snd (Os.MkdirAll_rec fuel path w)) !! q = fs w !! q.
Proof.
  assert (Hself : forall path q, Str.HasPrefix path q = false -> q <> path).
  { intros path q H ->. now rewrite HasPrefix_refl in H. }
  induction fuel as [|fuel IH]; intros path w q Hq; simpl;
    destruct (fs w !! path) as [[? ? ?|?]|]; try reflexivity;
    destruct (String.eqb (Filepath.Dir path) "." || String.eqb (Filepath.Dir path) path) eqn:Ed;
    try (apply Mkdir_frame; now apply Hself); try reflexivity.
  apply orb_false_iff in Ed as [Ed _]. apply String.eqb_neq in Ed.
  assert (Hpq : Str.HasPrefix (Filepath.Dir path) q = false).
  { destruct (Str.HasPrefix (Filepath.Dir path) q) eqn:E; [|reflexivity].
    rewrite (HasPrefix_trans path _ q (Dir_prefix path Ed) E) in Hq. discriminate. }
  pose proof (IH (Filepath.Dir path) w q Hpq) as Hp.
  destruct (Os.MkdirAll_rec fuel (Filepath.Dir path) w) as [[e|] w']; [exact Hp|].
  simpl in Hp. rewrite <- Hp. apply Mkdir_frame. now apply Hself.
Qed.

Lemma Dir_shorter p :
  Filepath.Dir p <> "." -> Filepath.Dir p <> p ->
  String.length (Filepath.Dir p) < String.length p.
Proof.
  intros H1 H2. pose proof (Dir_prefix p H1) as Hp.
  apply StrFacts.HasPrefix_spec in Hp as [r Hr].
  destruct r as [|a r]; [rewrite StrFacts.app_nil_r in Hr; congruence|].
  rewrite Hr at 2. rewrite StrFacts.length_app. simpl. lia.
Qed.

(** The fuel of [MkdirAll] is enough: more of it changes nothing, so the
    recursion on the parents never stops for lack of it. *)
Lemma MkdirAll_fuel fuel : forall fuel' path w,
  String.length path <= fuel -> String.length path <= fuel' ->
  Os.MkdirAll_rec fuel path w = Os.MkdirAll_rec fuel' path w.
Proof.
  induction fuel as [|fuel IH]; intros fuel' path w H1 H2.
  - destruct path; [|simpl in H1; lia]. destruct fuel'; reflexivity.
  - destruct fuel' as [|fuel'].
    + destruct path; [|simpl in H2; lia]. reflexivity.
    + simpl. destruct (fs w !! path) as [[? ? ?|?]|]; try reflexivity.
      destruct (String.eqb_spec (Filepath.Dir path) ".") as [|Hd1]; [reflexivity|].
      destruct (String.eqb_spec (Filepath.Dir path) path) as [|Hd2]; [reflexivity|].
      simpl. pose proof (Dir_shorter path Hd1 Hd2).
      rewrite (IH fuel' (Filepath.Dir path) w) by lia. reflexivity.
Qed.

Lemma MkdirAll_enough fuel path w :
  String.length path <= fuel -> Os.MkdirAll_rec fuel path w = Os.MkdirAll path w.
Proof. intros H. now apply MkdirAll_fuel. Qed.

Lemma MkdirAll_io path w : same_io w (snd (Os.MkdirAll path w)).
Proof. apply MkdirAll_rec_io. Qed.

Lemma MkdirAll_frame path w q :
  Str.HasPrefix path q = false -> fs (snd (Os.MkdirAll path w)) !! q = fs w !! q.
Proof. apply MkdirAll_rec_frame. Qed.

Lemma RemoveAll_io path w : same_io w (snd (Os.RemoveAll path w)).
Proof.
  unfold Os.RemoveAll. destruct (fs w !! path); [apply same_io_set_fs | apply same_io_refl].
Qed.

Lemma RemoveAll_frame path w q :
  Os.below path q = false -> fs (snd (Os.RemoveAll path w)) !! q = fs w !! q.
Proof.
  intros Hq. unfold Os.RemoveAll. destruct (fs w !! path); [|reflexivity]. simpl.
  destruct (fs w !! q) as [nq|] eqn:E.
  - apply map_lookup_filter_Some_2; [assumption | now left].
  - apply map_lookup_filter_None_2. now left.
Qed.

Lemma Remove_io path w : same_io w (snd (Os.Remove path w)).
Proof.
  unfold Os.Remove. destruct (fs w !! path) as [n|]; [|apply same_io_refl].
  destruct (negb _); [apply same_io_refl|].
  destruct n; [apply same_io_set_fs|].
  destruct (map_to_list _); [apply same_io_set_fs | apply same_io_refl].
Qed.

Lemma UserHomeDir_spec env w :
  exists err, Os.UserHomeDir env w = ((HOME env, err), w)
              /\ (HOME env = EmptyString -> err = Some "$HOME is not defined").
Proof.
  unfold Os.UserHomeDir. destruct (String.eqb_spec (HOME env) EmptyString) as [E|E].
  - rewrite E. eauto.
  - eexists. split; [reflexivity | congruence].
Qed.

Lemma Run_spawned env toStdout argv w :
  spawned (snd (Os.Run env toStdout argv w)) = spawned w ++ [argv].
Proof. unfold Os.Run. now destruct (exec env argv (fs w)) as [[? ?] ?]. Qed.

Lemma Run_fs env toStdout argv w :
  fs (snd (Os.Run env toStdout argv w)) = (exec env argv (fs w)).1.1.
Proof. unfold Os.Run. now destruct (exec env argv (fs w)) as [[? ?] ?]. Qed.

(** *** The paths of the installer *)

Section Paths.

Variable homeDir : string.

Lemma tempFile_eq :
  Filepath.Join [homeDir; "ollama.tgz"] = dirprefix homeDir +:+ "ollama.tgz".
Proof. apply (Join_home homeDir ["ollama.tgz"]); [now repeat constructor | discriminate]. Qed.

Lemma binDir_eq : Filepath.Join [homeDir; "bin"] = dirprefix homeDir +:+ "bin".
Proof. apply (Join_home homeDir ["bin"]); [now repeat constructor | discriminate]. Qed.

Lemma tempDir_eq :
  Filepath.Join [homeDir; "ollama-extract"] = dirprefix homeDir +:+ "ollama-extract".
Proof. apply (Join_home homeDir ["ollama-extract"]); [now repeat constructor | discriminate]. Qed.

Lemma finalPath_eq :
  Filepath.Join [Filepath.Join [homeDir; "bin"]; "ollama"] = dirprefix homeDir +:+ "bin/ollama".
Proof.
  apply (Join_home_twice homeDir ["bin"] ["ollama"]);
    (now repeat constructor) || discriminate.
Qed.

Lemma source_eq :
  Filepath.Join [Filepath.Join [homeDir; "ollama-extract"]; "bin"; "ollama"] =
  dirprefix homeDir +:+ "ollama-extract/bin/ollama".
Proof.
  apply (Join_home_twice homeDir ["ollama-extract"] ["bin"; "ollama"]);
    (now repeat constructor) || discriminate.
Qed.

Lemma finalPath_not_tempFile :
  String.eqb (Filepath.Join [homeDir; "ollama.tgz"])
             (Filepath.Join [Filepath.Join [homeDir; "bin"]; "ollama"]) = false.
Proof. now rewrite finalPath_eq, tempFile_eq, eqb_app_same. Qed.

Lemma finalPath_not_below_tempDir :
  Os.below (Filepath.Join [homeDir; "ollama-extract"])
           (Filepath.Join [Filepath.Join [homeDir; "bin"]; "ollama"]) = false.
Proof.
  unfold Os.below. rewrite finalPath_eq, tempDir_eq, eqb_app_same.
  now rewrite StrFacts.app_assoc, HasPrefix_app_same.
Qed.

Lemma finalPath_not_above_binDir :
  Str.HasPrefix (Filepath.Join [homeDir; "bin"])
                (Filepath.Join [Filepath.Join [homeDir; "bin"]; "ollama"]) = false.
Proof. now rewrite finalPath_eq, binDir_eq, HasPrefix_app_same. Qed.

Lemma finalPath_not_above_tempDir :
  Str.HasPrefix (Filepath.Join [homeDir; "ollama-extract"])
                (Filepath.Join [Filepath.Join [homeDir; "bin"]; "ollama"]) = false.
Proof. now rewrite finalPath_eq, tempDir_eq, HasPrefix_app_same. Qed.

End Paths.

End OsFacts.

Module InstallFacts.

Import OsFacts.

#[local] Arguments Os.Printf : simpl never.
#[local] Arguments Os.Run : simpl never.
#[local] Arguments Os.MkdirAll : simpl never.
#[local] Arguments Os.RemoveAll : simpl never.
#[local] Arguments Os.Remove : simpl never.
#[local] Arguments updatePath : simpl never.

Section Steps.

Variable env : Env.
Variable url : string.

(** The run of the installer, step by step. *)
Lemma installOllama_steps (w : World) :
  let homeDir := HOME env in
  let tempFile := Filepath.Join [homeDir; "ollama.tgz"] in
  let binDir := Filepath.Join [homeDir; "bin"] in
  let tempDir := Filepath.Join [homeDir; "ollama-extract"] in
  let finalPath := Filepath.Join [binDir; "ollama"] in
  installOllama env url w =
  match Os.Run env true (curl_argv url tempFile) (before_download url w) with
  | (Some e, w1) => (Some ("failed to download: " +:+ e), w1)
  | (None, w1) =>
  match Os.MkdirAll binDir w1 with
  | (Some e, w2) => (Some ("failed to create bin directory: " +:+ e), w2)
  | (None, w2) =>
  match Os.Run env true (tar_argv tempFile tempDir) (before_extract tempDir w2) with
  | (Some e, w3) => (Some ("failed to extract: " +:+ e), w3)
  | (None, w3) =>
  match Os.Run env false
          (mv_argv (Filepath.Join [tempDir; "bin"; "ollama"]) finalPath) w3 with
  | (Some e, w4) => (Some ("failed to move binary: " +:+ e), w4)
  | (None, w4) =>
  match Os.Run env false (chmod_argv finalPath) w4 with
  | (Some e, w5) => (Some ("failed to make executable: " +:+ e), w5)
  | (None, w5) =>
  match updatePath env homeDir (before_updatePath tempFile tempDir w5) with
  | (Some e, w6) => (None, printed (closing_lines e finalPath) w6)
  | (None, w6) => (None, printed (tl (closing_lines EmptyString finalPath)) w6)
  end end end end end end.
Proof.
  intros homeDir tempFile binDir tempDir finalPath.
  unfold installOllama, mbind, M_bind, mret, M_ret.
  destruct (UserHomeDir_spec env w) as (err & -> & _).
  fold homeDir. fold tempFile. fold binDir. fold tempDir. fold finalPath.
  unfold before_download, before_extract, before_updatePath, curl_argv, tar_argv,
    mv_argv, chmod_argv.
  destruct (Os.Printf _ [url] w) as [[] w0]. snd_pair.
  destruct (Os.Run env true _ w0) as [[e|] w1];
    [unfold Fmt.Errorf; simpl; now rewrite StrFacts.app_nil_r|].
  destruct (Os.MkdirAll binDir w1) as [[e|] w2];
    [unfold Fmt.Errorf; simpl; now rewrite StrFacts.app_nil_r|].
  destruct (Os.RemoveAll tempDir w2) as [x1 wa]. snd_pair.
  destruct (Os.MkdirAll tempDir wa) as [x2 wb]. snd_pair.
  destruct (Os.Printf _ [] wb) as [[] wc]. snd_pair.
  destruct (Os.Run env true _ wc) as [[e|] w3];
    [unfold Fmt.Errorf; simpl; now rewrite StrFacts.app_nil_r|].
  destruct (Os.Run env false _ w3) as [[e|] w4];
    [unfold Fmt.Errorf; simpl; now rewrite StrFacts.app_nil_r|].
  destruct (Os.Run env false _ w4) as [[e|] w5];
    [unfold Fmt.Errorf; simpl; now rewrite StrFacts.app_nil_r|].
  destruct (Os.Remove tempFile w5) as [x3 wd]. snd_pair.
  destruct (Os.RemoveAll tempDir wd) as [x4 we]. snd_pair.
  destruct (updatePath env homeDir we) as [[e|] w6].
  - unfold Os.Printf, printed, closing_lines, Fmt.Sprintf. simpl.
    now rewrite <- !app_assoc.
  - unfold Os.Printf, printed, closing_lines, Fmt.Sprintf. simpl.
    now rewrite <- !app_assoc.
Qed.

Lemma first_append_io homeDir cands : forall w,
  spawned (snd (first_append env homeDir cands w)) = spawned w /\
  requests (snd (first_append env homeDir cands w)) = requests w /\
  (fst (first_append env homeDir cands w) <> None ->
   fst (first_append env homeDir cands w) =
     Some "failed to update any shell configuration file").
Proof.
  induction cands as [|[name flag] rest IH]; intros w; [repeat split|].
  simpl first_append.
  assert (Htry :
    let r := (let '(a, w') := appendToFile env (Filepath.Join [homeDir; name]) pathExport w in
              match a with
              | None => (None, snd (Os.Printf ("Updated " +:+ name +:+ " with PATH export" +:+ nl) [] w'))
              | Some _ => first_append env homeDir rest w'
              end) in
    spawned (snd r) = spawned w /\ requests (snd r) = requests w /\
    (fst r <> None -> fst r = Some "failed to update any shell configuration file")).
  { pose proof (UpdateFacts.appendToFile_cases env (Filepath.Join [homeDir; name]) pathExport w)
      as (_ & Hs & Hr & _).
    destruct (appendToFile env (Filepath.Join [homeDir; name]) pathExport w) as [[e|] w'].
    - simpl in Hs, Hr. destruct (IH w') as (H1 & H2 & H3).
      cbv zeta. rewrite H1, H2. auto.
    - simpl in Hs, Hr. cbv zeta. repeat split; auto. intros H. now contradiction H. }
  destruct flag; [destruct (fs w !! Filepath.Join [homeDir; name])|]; auto.
Qed.

Lemma updatePath_io homeDir w :
  spawned (snd (updatePath env homeDir w)) = spawned w /\
  (fst (updatePath env homeDir w) <> None ->
   fst (updatePath env homeDir w) = Some "failed to update any shell configuration file").
Proof.
  rewrite UpdateFacts.updatePath_refines. unfold updatePath_spec.
  destruct (existsb _ configFiles); [split; [reflexivity | intros H; now contradiction H]|].
  destruct (first_append_io homeDir candidates w) as (H1 & _ & H3). auto.
Qed.

End Steps.

End InstallFacts.

Section Installer.

Import OsFacts InstallFacts.

Variable env : Env.
Variable url : string.

(** C2: when [curl] exits with an error, [installOllama] returns the
    download error in the world that [curl] has left, in which [curl] is the
    only command that has run; when [curl] and the creation of the bin
    directory succeed and [tar] exits with an error, it returns the
    extraction error and [curl] and [tar] are the only commands that have
    run.  In both cases [mv] and [chmod] have not run, and when [curl]
    writes nothing but its output file and [tar] nothing outside the scratch
    directory, the node at the final binary path is what it was before the
    run: no file has been created there. *)
Theorem installOllama_aborts (w : World) :
  let homeDir := HOME env in
  let tempFile := Filepath.Join [homeDir; "ollama.tgz"] in
  let binDir := Filepath.Join [homeDir; "bin"] in
  let tempDir := Filepath.Join [homeDir; "ollama-extract"] in
  let finalPath := Filepath.Join [binDir; "ollama"] in
  (forall e w1,
     Os.Run env true (curl_argv url tempFile) (before_download url w) = (Some e, w1) ->
     installOllama env url w = (Some ("failed to download: " +:+ e), w1)
     /\ spawned w1 = spawned w ++ [curl_argv url tempFile]
     /\ (writes_only env (curl_argv url tempFile) (String.eqb tempFile) ->
         fs w1 !! finalPath = fs w !! finalPath))
  /\
  (forall w1 w2 e w3,
     Os.Run env true (curl_argv url tempFile) (before_download url w) = (None, w1) ->
     Os.MkdirAll binDir w1 = (None, w2) ->
     Os.Run env true (tar_argv tempFile tempDir) (before_extract tempDir w2) = (Some e, w3) ->
     installOllama env url w = (Some ("failed to extract: " +:+ e), w3)
     /\ spawned w3 = spawned w ++ [curl_argv url tempFile; tar_argv tempFile tempDir]
     /\ (writes_only env (curl_argv url tempFile) (String.eqb tempFile) ->
         writes_only env (tar_argv tempFile tempDir) (Os.below tempDir) ->
         fs w3 !! finalPath = fs w !! finalPath)).
Proof.
  intros homeDir tempFile binDir tempDir finalPath.
  pose proof (installOllama_steps env url w) as Hsteps. cbv zeta in Hsteps.
  fold homeDir tempFile binDir tempDir finalPath in Hsteps.
  split.
  - intros e w1 Hcurl. rewrite Hcurl in Hsteps. split; [exact Hsteps|].
    pose proof (Run_spawned env true (curl_argv url tempFile) (before_download url w)) as Hs.
    pose proof (Run_fs env true (curl_argv url tempFile) (before_download url w)) as Hf.
    rewrite Hcurl in Hs, Hf. simpl in Hs, Hf. split; [exact Hs|].
    intros Hframe. rewrite Hf. apply Hframe. apply finalPath_not_tempFile.
  - intros w1 w2 e w3 Hcurl Hmk Htar. rewrite Hcurl, Hmk, Htar in Hsteps.
    split; [exact Hsteps|].
    pose proof (Run_spawned env true (curl_argv url tempFile) (before_download url w)) as Hs1.
    pose proof (Run_fs env true (curl_argv url tempFile) (before_download url w)) as Hf1.
    rewrite Hcurl in Hs1, Hf1. simpl in Hs1, Hf1.
    pose proof (MkdirAll_io binDir w1) as (_ & Hs2 & _).
    pose proof (MkdirAll_frame binDir w1 finalPath (finalPath_not_above_binDir homeDir)) as Hf2.
    rewrite Hmk in Hs2, Hf2. simpl in Hs2, Hf2.
    pose proof (RemoveAll_io tempDir w2) as (_ & Hs3 & _).
    pose proof (RemoveAll_frame tempDir w2 finalPath (finalPath_not_below_tempDir homeDir))
      as Hf3.
    set (wa := snd (Os.RemoveAll tempDir w2)) in *.
    pose proof (MkdirAll_io tempDir wa) as (_ & Hs4 & _).
    pose proof (MkdirAll_frame tempDir wa finalPath (finalPath_not_above_tempDir homeDir)) as Hf4.
    pose proof (Run_spawned env true (tar_argv tempFile tempDir) (before_extract tempDir w2))
      as Hs5.
    pose proof (Run_fs env true (tar_argv tempFile tempDir) (before_extract tempDir w2)) as Hf5.
    rewrite Htar in Hs5, Hf5. simpl in Hs5, Hf5.
    unfold before_extract in Hs5, Hf5. fold wa in Hs5, Hf5.
    change (spawned (snd (Os.Printf _ _ ?x))) with (spawned x) in Hs5.
    change (fs (snd (Os.Printf _ _ ?x))) with (fs x) in Hf5.
    split.
    + rewrite Hs5, Hs4, Hs3, Hs2, Hs1, <- app_assoc. reflexivity.
    + intros Hcurlframe Htarframe.
      rewrite Hf5, Htarframe by apply finalPath_not_below_tempDir.
      rewrite Hf4, Hf3, Hf2, Hf1. apply Hcurlframe. apply finalPath_not_tempFile.
Qed.

(** C7: when the download, the bin directory, the extraction, the move and
    the permission change have succeeded and [updatePath] then fails, which
    it does with the error that no configuration file could be updated,
    [installOllama] prints the warning with this error, then its two closing
    lines, and returns no error. *)
Theorem installOllama_warns (w w1 w2 w3 w4 w5 : World) (e : string) (w6 : World) :
  let homeDir := HOME env in
  let tempFile := Filepath.Join [homeDir; "ollama.tgz"] in
  let binDir := Filepath.Join [homeDir; "bin"] in
  let tempDir := Filepath.Join [homeDir; "ollama-extract"] in
  let finalPath := Filepath.Join [binDir; "ollama"] in
  Os.Run env true (curl_argv url tempFile) (before_download url w) = (None, w1) ->
  Os.MkdirAll binDir w1 = (None, w2) ->
  Os.Run env true (tar_argv tempFile tempDir) (before_extract tempDir w2) = (None, w3) ->
  Os.Run env false (mv_argv (Filepath.Join [tempDir; "bin"; "ollama"]) finalPath) w3
    = (None, w4) ->
  Os.Run env false (chmod_argv finalPath) w4 = (None, w5) ->
  updatePath env homeDir (before_updatePath tempFile tempDir w5) = (Some e, w6) ->
  e = "failed to update any shell configuration file"
  /\ installOllama env url w = (None, printed (closing_lines e finalPath) w6)
  /\ stdout (snd (installOllama env url w)) =
       stdout w6 ++
       ["Warning: Failed to update PATH: failed to update any shell configuration file"
          +:+ nl;
        "Ollama installed successfully to " +:+ finalPath +:+ nl;
        "Please restart your terminal OR log out and log back in to use the new version"
          +:+ nl].
Proof.
  intros homeDir tempFile binDir tempDir finalPath Hcurl Hmk Htar Hmv Hchmod Hup.
  pose proof (installOllama_steps env url w) as Hsteps. cbv zeta in Hsteps.
  fold homeDir tempFile binDir tempDir finalPath in Hsteps.
  rewrite Hcurl, Hmk, Htar, Hmv, Hchmod, Hup in Hsteps.
  assert (He : e = "failed to update any shell configuration file").
  { destruct (updatePath_io env homeDir (before_updatePath tempFile tempDir w5)) as [_ H].
    rewrite Hup in H. simpl in H. specialize (H ltac:(discriminate)). congruence. }
  split; [exact He|]. split; [exact Hsteps|].
  rewrite Hsteps. subst e. reflexivity.
Qed.

(** C8: without [$HOME] the lookup of the home directory fails with the
    empty string, and [installOllama] goes on with it: [curl] is run with
    the archive path [ollama.tgz]; an error that the run returns comes from
    one of its five checked steps; and a run without error has spawned its
    four commands with the paths [ollama.tgz], [ollama-extract],
    [ollama-extract/bin/ollama] and [bin/ollama], relative to the working
    directory, and has announced the installation to [bin/ollama]. *)
Theorem installOllama_without_home (w : World) :
  HOME env = EmptyString ->
  let r := installOllama env url w in
  Os.UserHomeDir env w = ((EmptyString, Some "$HOME is not defined"), w)
  /\ Filepath.Join [EmptyString; "ollama.tgz"] = "ollama.tgz"
  /\ Filepath.Join [EmptyString; "bin"] = "bin"
  /\ Filepath.Join [EmptyString; "ollama-extract"] = "ollama-extract"
  /\ Filepath.Join [Filepath.Join [EmptyString; "bin"]; "ollama"] = "bin/ollama"
  /\ (exists rest, spawned (snd r) = spawned w ++ curl_argv url "ollama.tgz" :: rest)
  /\ (forall e, fst r = Some e ->
        exists cause,
          In e ["failed to download: " +:+ cause;
                "failed to create bin directory: " +:+ cause;
                "failed to extract: " +:+ cause;
                "failed to move binary: " +:+ cause;
                "failed to make executable: " +:+ cause])
  /\ (fst r = None ->
        spawned (snd r) =
          spawned w ++
          [curl_argv url "ollama.tgz";
           tar_argv "ollama.tgz" "ollama-extract";
           mv_argv "ollama-extract/bin/ollama" "bin/ollama";
           chmod_argv "bin/ollama"]
        /\ In ("Ollama installed successfully to bin/ollama" +:+ nl) (stdout (snd r))).
Proof.
  intros Hhome r.
  split; [unfold Os.UserHomeDir; now rewrite Hhome|].
  do 4 (split; [reflexivity|]).
  pose proof (installOllama_steps env url w) as Hsteps. cbv zeta in Hsteps.
  rewrite Hhome in Hsteps.
  change (Filepath.Join [EmptyString; "ollama.tgz"]) with "ollama.tgz" in Hsteps.
  change (Filepath.Join [EmptyString; "bin"]) with "bin" in Hsteps.
  change (Filepath.Join [EmptyString; "ollama-extract"]) with "ollama-extract" in Hsteps.
  change (Filepath.Join ["bin"; "ollama"]) with "bin/ollama" in Hsteps.
  change (Filepath.Join ["ollama-extract"; "bin"; "ollama"])
    with "ollama-extract/bin/ollama" in Hsteps.
  fold r in Hsteps.
  pose proof (Run_spawned env true (curl_argv url "ollama.tgz") (before_download url w)) as Hs1.
  change (spawned (before_download url w)) with (spawned w) in Hs1.
  destruct (Os.Run env true (curl_argv url "ollama.tgz") (before_download url w))
    as [[e1|] w1]; simpl in Hs1.
  { rewrite Hsteps. simpl. split; [exists []; exact Hs1|].
    split; [|discriminate]. intros e H. inversion H. exists e1. simpl. tauto. }
  pose proof (MkdirAll_io "bin" w1) as (_ & Hs2 & _).
  destruct (Os.MkdirAll "bin" w1) as [[e2|] w2]; simpl in Hs2.
  { rewrite Hsteps. simpl. split; [exists []; congruence|].
    split; [|discriminate]. intros e H. inversion H. exists e2. simpl. tauto. }
  pose proof (Run_spawned env true (tar_argv "ollama.tgz" "ollama-extract")
                (before_extract "ollama-extract" w2)) as Hs3.
  assert (Hs3' : spawned (before_extract "ollama-extract" w2) = spawned w2).
  { unfold before_extract.
    change (spawned (snd (Os.Printf _ _ ?x))) with (spawned x).
    pose proof (MkdirAll_io "ollama-extract" (snd (Os.RemoveAll "ollama-extract" w2)))
      as (_ & -> & _).
    apply (RemoveAll_io "ollama-extract" w2). }
  rewrite Hs3' in Hs3.
  destruct (Os.Run env true (tar_argv "ollama.tgz" "ollama-extract") _)
    as [[e3|] w3]; simpl in Hs3.
  { rewrite Hsteps. simpl. split; [eexists; rewrite Hs3, Hs2, Hs1, <- app_assoc; reflexivity|].
    split; [|discriminate]. intros e H. inversion H. exists e3. simpl. tauto. }
  pose proof (Run_spawned env false (mv_argv "ollama-extract/bin/ollama" "bin/ollama") w3)
    as Hs4.
  destruct (Os.Run env false (mv_argv "ollama-extract/bin/ollama" "bin/ollama") w3)
    as [[e4|] w4]; simpl in Hs4.
  { rewrite Hsteps. simpl.
    split; [eexists; rewrite Hs4, Hs3, Hs2, Hs1, <- !app_assoc; reflexivity|].
    split; [|discriminate]. intros e H. inversion H. exists e4. simpl. tauto. }
  pose proof (Run_spawned env false (chmod_argv "bin/ollama") w4) as Hs5.
  destruct (Os.Run env false (chmod_argv "bin/ollama") w4) as [[e5|] w5]; simpl in Hs5.
  { rewrite Hsteps. simpl.
    split; [eexists; rewrite Hs5, Hs4, Hs3, Hs2, Hs1, <- !app_assoc; reflexivity|].
    split; [|discriminate]. intros e H. inversion H. exists e5. simpl. tauto. }
  pose proof (updatePath_io env EmptyString (before_updatePath "ollama.tgz" "ollama-extract" w5))
    as [Hs6 _].
  assert (Hs6' : spawned (before_updatePath "ollama.tgz" "ollama-extract" w5) = spawned w5).
  { unfold before_updatePath.
    pose proof (RemoveAll_io "ollama-extract" (snd (Os.Remove "ollama.tgz" w5))) as (_ & -> & _).
    apply (Remove_io "ollama.tgz" w5). }
  rewrite Hs6' in Hs6.
  assert (Hsp : forall w6 more, spawned w6 = spawned w5 ->
            spawned (printed more w6) =
            spawned w ++ [curl_argv url "ollama.tgz"; tar_argv "ollama.tgz" "ollama-extract";
                          mv_argv "ollama-extract/bin/ollama" "bin/ollama";
                          chmod_argv "bin/ollama"]).
  { intros w6 more H. simpl. rewrite H, Hs5, Hs4, Hs3, Hs2, Hs1, <- !app_assoc. reflexivity. }
  destruct (updatePath env EmptyString (before_updatePath "ollama.tgz" "ollama-extract" w5))
    as [[e6|] w6]; simpl in Hs6; rewrite Hsteps; simpl fst; simpl snd.
  - split; [eexists; rewrite (Hsp w6 _ Hs6); reflexivity|].
    split; [discriminate|]. intros _. split; [now apply Hsp|].
    simpl. apply in_or_app. right. simpl. tauto.
  - split; [eexists; rewrite (Hsp w6 _ Hs6); reflexivity|].
    split; [discriminate|]. intros _. split; [now apply Hsp|].
    simpl. apply in_or_app. right. simpl. tauto.
Qed.

End Installer.

Lemma installOllama_aborts_witness :
  let w := home_world [] in
  let url := getDownloadURL "v0.5.2" in
  fst (installOllama (env_failing "curl") url w) = Some "failed to download: exit status 1"
  /\ spawned (snd (installOllama (env_failing "curl") url w))
     = [curl_argv url "/home/u/ollama.tgz"]
  /\ fs (snd (installOllama (env_failing "curl") url w)) !! "/home/u/bin/ollama" = None
  /\ fst (installOllama (env_failing "tar") url w) = Some "failed to extract: exit status 1"
  /\ spawned (snd (installOllama (env_failing "tar") url w))
     = [curl_argv url "/home/u/ollama.tgz";
        tar_argv "/home/u/ollama.tgz" "/home/u/ollama-extract"]
  /\ fs (snd (installOllama (env_failing "tar") url w)) !! "/home/u/bin/ollama" = None.
Proof.
  intros w url.
  destruct (installOllama_aborts (env_failing "curl") url w) as [Hcurl _].
  destruct (installOllama_aborts (env_failing "tar") url w) as [_ Htar].
  destruct (Hcurl _ _ eq_refl) as (H1 & H2 & H3).
  destruct (Htar _ _ _ _ eq_refl eq_refl eq_refl) as (H4 & H5 & H6).
  rewrite H1, H4.
  split; [reflexivity|]. split; [exact H2|].
  split; [exact (eq_trans (H3 (fun files p _ => eq_refl)) eq_refl)|].
  split; [reflexivity|]. split; [exact H5|].
  exact (eq_trans (H6 (fun files p _ => eq_refl) (fun files p _ => eq_refl)) eq_refl).
Defined.

Lemma installOllama_warns_witness :
  let r := installOllama env_disk_full (getDownloadURL "v0.5.2") (home_world []) in
  fst r = None
  /\ stdout (snd r) =
       [ "Downloading Ollama from https://github.com/ollama/ollama/releases/download/v0.5.2/ollama-linux-amd64.tgz..." +:+ nl;
         EmptyString;
         "Extracting Ollama binary..." +:+ nl;
         EmptyString;
         "Warning: Failed to update PATH: failed to update any shell configuration file" +:+ nl;
         "Ollama installed successfully to /home/u/bin/ollama" +:+ nl;
         "Please restart your terminal OR log out and log back in to use the new version" +:+ nl].
Proof.
  intros r.
  destruct (installOllama_warns env_disk_full (getDownloadURL "v0.5.2") (home_world [])
              _ _ _ _ _ _ _ eq_refl eq_refl eq_refl eq_refl eq_refl eq_refl)
    as (_ & H1 & H2).
  unfold r. rewrite H2. rewrite H1. split; reflexivity.
Defined.

Lemma installOllama_without_home_witness :
  let r := installOllama env_no_home (getDownloadURL "v0.5.2") cwd_world in
  fst r = None
  /\ spawned (snd r) =
       [curl_argv (getDownloadURL "v0.5.2") "ollama.tgz";
        tar_argv "ollama.tgz" "ollama-extract";
        mv_argv "ollama-extract/bin/ollama" "bin/ollama";
        chmod_argv "bin/ollama"]
  /\ fs (snd r) !! "bin" = Some (Directory true).
Proof.
  intros r.
  destruct (installOllama_without_home env_no_home (getDownloadURL "v0.5.2") cwd_world eq_refl)
    as (_ & _ & _ & _ & _ & _ & _ & H).
  assert (Hr : fst r = None) by reflexivity.
  split; [exact Hr|]. split; [exact (proj1 (H Hr)) | reflexivity].
Defined.

(** * Further properties *)

Module MoreFacts.

Lemma app_inv_tail (a : string) : forall b s, a +:+ s = b +:+ s -> a = b.
Proof.
  induction a as [|x a IH]; intros b s H.
  - destruct b as [|y b]; [reflexivity|].
    apply (f_equal String.length) in H. simpl in H.
    rewrite StrFacts.length_app in H. lia.
  - destruct b as [|y b].
    + apply (f_equal String.length) in H. simpl in H.
      rewrite StrFacts.length_app in H. lia.
    + simpl in H. inversion H; subst. f_equal. now apply (IH b s).
Qed.

Lemma fold_tag_members members : forall st,
  fold_left JsonDecode.member members st =
  fold_left JsonDecode.member (tag_members members) st.
Proof.
  induction members as [|[key v] ms IH]; intros st; [reflexivity|].
  unfold tag_members in *. simpl.
  destruct (Json.matches_field "tag_name" key) eqn:E; simpl.
  - rewrite E. apply IH.
  - apply IH.
Qed.

Lemma getLatest_world env w :
  snd (getLatestOllamaVersion env w) =
  {| fs := fs w; stdout := stdout w; spawned := spawned w;
     requests := requests w ++ [latestURL] |}.
Proof.
  unfold getLatestOllamaVersion, mbind, M_bind, mret, M_ret, Os.HttpGet. fold latestURL.
  destruct (http env (length (requests w)) latestURL) as [msg|status body]; [reflexivity|].
  destruct (Decode body _) as [release [e|]]; reflexivity.
Qed.

Lemma Printf_eta f args w : Os.Printf f args w = (tt, snd (Os.Printf f args w)).
Proof. reflexivity. Qed.

End MoreFacts.

(** X1: [getDownloadURL] is injective: two versions have the same download
    address only when they are the same version. *)
Theorem getDownloadURL_injective (v1 v2 : string) :
  getDownloadURL v1 = getDownloadURL v2 <-> v1 = v2.
Proof.
  split; [|now intros ->].
  intros H.
  change (("https://github.com/ollama/ollama/releases/download/" +:+ v1 +:+
           "/ollama-linux-amd64.tgz") =
          ("https://github.com/ollama/ollama/releases/download/" +:+ v2 +:+
           "/ollama-linux-amd64.tgz")) in H.
  apply String.app_inj in H. now apply MoreFacts.app_inv_tail in H.
Qed.

(** X2: the result of [getLatestOllamaVersion] on a JSON object depends on
    nothing but the members whose name is [tag_name] up to letter case, in
    their order: the status code of the response and all other members have
    no influence on the version or the error returned. *)
Theorem getLatestOllamaVersion_depends (env1 env2 : Env) (w1 w2 : World)
    (status1 status2 : nat) (members1 members2 : list (string * Json.value)) :
  http env1 (length (requests w1)) latestURL =
    HttpResponse status1 (BodyJSON (Json.Object members1)) ->
  http env2 (length (requests w2)) latestURL =
    HttpResponse status2 (BodyJSON (Json.Object members2)) ->
  tag_members members1 = tag_members members2 ->
  fst (getLatestOllamaVersion env1 w1) = fst (getLatestOllamaVersion env2 w2).
Proof.
  intros H1 H2 Hm.
  unfold getLatestOllamaVersion, mbind, M_bind, mret, M_ret, Os.HttpGet. fold latestURL.
  rewrite H1, H2. simpl.
  rewrite (MoreFacts.fold_tag_members members1), (MoreFacts.fold_tag_members members2), Hm.
  destruct (fold_left JsonDecode.member (tag_members members2) _) as [release [e|]];
    reflexivity.
Qed.

Lemma getLatestOllamaVersion_depends_witness :
  fst (getLatestOllamaVersion
         (env_with_body 200 (Json.Object [("tag_name", Json.Str "v0.5.2")])) world0)
  = fst (getLatestOllamaVersion
           (env_with_body 404
              (Json.Object [("id", Json.Number "7"); ("tag_name", Json.Str "v0.5.2");
                            ("assets", Json.Array [])]))
           world0).
Proof.
  apply (getLatestOllamaVersion_depends _ _ world0 world0 200 404
           [("tag_name", Json.Str "v0.5.2")]
           [("id", Json.Number "7"); ("tag_name", Json.Str "v0.5.2");
            ("assets", Json.Array [])]); reflexivity.
Defined.

(** X3: when the version cannot be resolved, [main] prints the error in one
    line and stops: besides the one request, the world is as it was; no
    command has been spawned and no file touched. *)
Theorem main_resolver_fails (env : Env) (w : World) (e : string) :
  snd (fst (getLatestOllamaVersion env w)) = Some e ->
  main env w =
    (tt,
     {| fs := fs w;
        stdout := stdout w ++ ["Error getting latest version: " +:+ e +:+ nl];
        spawned := spawned w;
        requests := requests w ++ [latestURL] |}).
Proof.
  intros He. unfold main, mbind, M_bind.
  pose proof (MoreFacts.getLatest_world env w) as Hw.
  destruct (getLatestOllamaVersion env w) as [[version err] w1].
  simpl in He, Hw. subst err w1. reflexivity.
Qed.

Lemma main_resolver_fails_witness :
  main env_ok (home_world []) =
    (tt,
     {| fs := fs (home_world []);
        stdout := ["Error getting latest version: failed to fetch latest release: dial tcp: network is unreachable" +:+ nl];
        spawned := [];
        requests := [latestURL] |}).
Proof.
  apply (main_resolver_fails env_ok (home_world [])
           "failed to fetch latest release: dial tcp: network is unreachable").
  reflexivity.
Defined.

Module InstallMore.

Import OsFacts InstallFacts.

#[local] Arguments Os.Printf : simpl never.
#[local] Arguments Os.Run : simpl never.
#[local] Arguments Os.MkdirAll : simpl never.
#[local] Arguments Os.RemoveAll : simpl never.
#[local] Arguments Os.Remove : simpl never.
#[local] Arguments updatePath : simpl never.
#[local] Arguments installOllama : simpl never.

Lemma Run_requests env toStdout argv w :
  requests (snd (Os.Run env toStdout argv w)) = requests w.
Proof. unfold Os.Run. now destruct (exec env argv (fs w)) as [[? ?] ?]. Qed.

Lemma updatePath_requests env homeDir w :
  requests (snd (updatePath env homeDir w)) = requests w.
Proof.
  rewrite UpdateFacts.updatePath_refines. unfold updatePath_spec.
  destruct (existsb _ configFiles); [reflexivity|].
  now destruct (first_append_io env homeDir candidates w) as (_ & H & _).
Qed.

(** The shape of every run of the installer. *)
Lemma installOllama_shape env url w :
  let r := installOllama env url w in
  let finalPath := Filepath.Join [Filepath.Join [HOME env; "bin"]; "ollama"] in
  exists n, 1 <= n <= 4
    /\ spawned (snd r) = spawned w ++ firstn n (install_commands url (HOME env))
    /\ requests (snd r) = requests w
    /\ (fst r = None ->
        n = 4 /\
        exists before,
          stdout (snd r) =
            before ++
            ["Ollama installed successfully to " +:+ finalPath +:+ nl;
             "Please restart your terminal OR log out and log back in to use the new version"
               +:+ nl])
    /\ (forall e, fst r = Some e ->
        exists cause,
          (n = 1 /\ (e = "failed to download: " +:+ cause \/
                     e = "failed to create bin directory: " +:+ cause))
          \/ (n = 2 /\ e = "failed to extract: " +:+ cause)
          \/ (n = 3 /\ e = "failed to move binary: " +:+ cause)
          \/ (n = 4 /\ e = "failed to make executable: " +:+ cause)).
Proof.
  intros r finalPath.
  pose proof (installOllama_steps env url w) as Hsteps. cbv zeta in Hsteps.
  fold r finalPath in Hsteps. unfold install_commands. fold finalPath.
  set (tempFile := Filepath.Join [HOME env; "ollama.tgz"]) in *.
  set (binDir := Filepath.Join [HOME env; "bin"]) in *.
  set (tempDir := Filepath.Join [HOME env; "ollama-extract"]) in *.
  set (c1 := curl_argv url tempFile) in *.
  set (c2 := tar_argv tempFile tempDir) in *.
  set (c3 := mv_argv (Filepath.Join [tempDir; "bin"; "ollama"]) finalPath) in *.
  set (c4 := chmod_argv finalPath) in *.
  pose proof (Run_spawned env true c1 (before_download url w)) as Hs1.
  pose proof (Run_requests env true c1 (before_download url w)) as Hq1.
  change (spawned (before_download url w)) with (spawned w) in Hs1.
  change (requests (before_download url w)) with (requests w) in Hq1.
  destruct (Os.Run env true c1 (before_download url w)) as [[e1|] w1]; simpl in Hs1, Hq1.
  { exists 1. rewrite Hsteps. simpl. repeat split; auto; try discriminate.
    intros e H. inversion H. exists e1. tauto. }
  pose proof (MkdirAll_io binDir w1) as (_ & Hs2 & Hq2).
  destruct (Os.MkdirAll binDir w1) as [[e2|] w2]; simpl in Hs2, Hq2.
  { exists 1. rewrite Hsteps. simpl. repeat split; auto; try congruence.
    intros e H. inversion H. exists e2. tauto. }
  pose proof (Run_spawned env true c2 (before_extract tempDir w2)) as Hs3.
  pose proof (Run_requests env true c2 (before_extract tempDir w2)) as Hq3.
  assert (Hio3 : spawned (before_extract tempDir w2) = spawned w2 /\
                 requests (before_extract tempDir w2) = requests w2).
  { unfold before_extract.
    change (spawned (snd (Os.Printf _ _ ?x))) with (spawned x).
    change (requests (snd (Os.Printf _ _ ?x))) with (requests x).
    pose proof (MkdirAll_io tempDir (snd (Os.RemoveAll tempDir w2))) as (_ & -> & ->).
    pose proof (RemoveAll_io tempDir w2) as (_ & -> & ->). auto. }
  destruct Hio3 as [Hio3 Hio3']. rewrite Hio3 in Hs3. rewrite Hio3' in Hq3.
  destruct (Os.Run env true c2 (before_extract tempDir w2)) as [[e3|] w3]; simpl in Hs3, Hq3.
  { exists 2. rewrite Hsteps. simpl. repeat split; auto; try congruence.
    - rewrite Hs3, Hs2, Hs1, <- app_assoc. reflexivity.
    - intros e H. inversion H. exists e3. tauto. }
  pose proof (Run_spawned env false c3 w3) as Hs4.
  pose proof (Run_requests env false c3 w3) as Hq4.
  destruct (Os.Run env false c3 w3) as [[e4|] w4]; simpl in Hs4, Hq4.
  { exists 3. rewrite Hsteps. simpl. repeat split; auto; try congruence.
    - rewrite Hs4, Hs3, Hs2, Hs1, <- !app_assoc. reflexivity.
    - intros e H. inversion H. exists e4. tauto. }
  pose proof (Run_spawned env false c4 w4) as Hs5.
  pose proof (Run_requests env false c4 w4) as Hq5.
  destruct (Os.Run env false c4 w4) as [[e5|] w5]; simpl in Hs5, Hq5.
  { exists 4. rewrite Hsteps. simpl. repeat split; auto; try congruence.
    - rewrite Hs5, Hs4, Hs3, Hs2, Hs1, <- !app_assoc. reflexivity.
    - intros e H. inversion H. exists e5. tauto. }
  pose proof (updatePath_io env (HOME env) (before_updatePath tempFile tempDir w5)) as [Hs6 _].
  pose proof (updatePath_requests env (HOME env) (before_updatePath tempFile tempDir w5)) as Hq6.
  assert (Hio6 : spawned (before_updatePath tempFile tempDir w5) = spawned w5 /\
                 requests (before_updatePath tempFile tempDir w5) = requests w5).
  { unfold before_updatePath.
    pose proof (RemoveAll_io tempDir (snd (Os.Remove tempFile w5))) as (_ & -> & ->).
    pose proof (Remove_io tempFile w5) as (_ & -> & ->). auto. }
  destruct Hio6 as [Hio6 Hio6']. rewrite Hio6 in Hs6. rewrite Hio6' in Hq6.
  exists 4.
  destruct (updatePath env (HOME env) (before_updatePath tempFile tempDir w5))
    as [[e6|] w6]; simpl in Hs6, Hq6; rewrite Hsteps; simpl fst; simpl snd;
    (split; [lia|]); (split; [simpl; rewrite Hs6, Hs5, Hs4, Hs3, Hs2, Hs1, <- !app_assoc;
                               reflexivity|]);
    (split; [simpl; congruence|]); (split; [|discriminate]); intros _; (split; [reflexivity|]).
  - exists (stdout w6 ++ ["Warning: Failed to update PATH: " +:+ e6 +:+ nl]).
    simpl. now rewrite <- app_assoc.
  - exists (stdout w6). reflexivity.
Qed.

End InstallMore.

Module ResetFacts.

Import OsFacts.

(** The directory of a path is not the path or below it. *)
Lemma below_Dir p : Filepath.Dir p <> p -> Os.below p (Filepath.Dir p) = false.
Proof.
  intros Hne. unfold Os.below. apply orb_false_iff. split.
  - now apply String.eqb_neq.
  - destruct (Str.HasPrefix (Filepath.Dir p) (p +:+ "/")) eqn:E; [|reflexivity].
    exfalso. apply StrFacts.HasPrefix_spec in E as [r Hr].
    pose proof (f_equal String.length Hr) as Hl.
    rewrite !StrFacts.length_app in Hl. simpl in Hl.
    destruct (String.eqb_spec (Filepath.Dir p) ".") as [Hd|Hd].
    + rewrite Hd in Hr, Hl. simpl in Hl.
      destruct p as [|a p]; [|simpl in Hl; lia].
      simpl in Hr. discriminate.
    + pose proof (Dir_shorter p Hd Hne). lia.
Qed.

Lemma below_self p : Os.below p p = true.
Proof. unfold Os.below. now rewrite String.eqb_refl. Qed.

(** [MkdirAll] makes a directory that is absent from a directory that can
    be changed. *)
Lemma MkdirAll_creates path w :
  fs w !! path = None -> fs w !! Filepath.Dir path = Some (Directory true) ->
  Os.MkdirAll path w = (None, set_fs (insert path (Directory true)) w).
Proof.
  intros Hp Hd.
  assert (Hmk : Os.Mkdir path w = (None, set_fs (insert path (Directory true)) w)).
  { unfold Os.Mkdir. now rewrite Hp, Hd. }
  unfold Os.MkdirAll.
  destruct (String.length path) as [|fuel] eqn:El.
  - destruct path; [|discriminate]. simpl. rewrite Hp. exact Hmk.
  - simpl. rewrite Hp.
    destruct (String.eqb (Filepath.Dir path) "." || String.eqb (Filepath.Dir path) path);
      [exact Hmk|].
    destruct fuel; simpl; rewrite Hd; exact Hmk.
Qed.

Lemma below_trans root p q :
  Os.below root p = true -> Os.below p q = true -> Os.below root q = true.
Proof.
  unfold Os.below. intros H1 H2.
  apply orb_true_iff in H1 as [H1|H1]; apply orb_true_iff in H2 as [H2|H2];
    try apply String.eqb_eq in H1; try apply String.eqb_eq in H2; subst;
    apply orb_true_iff; auto.
  - left. apply String.eqb_refl.
  - right. apply StrFacts.HasPrefix_spec in H1 as [r1 ->].
    apply StrFacts.HasPrefix_spec in H2 as [r2 ->].
    apply StrFacts.HasPrefix_spec. exists (r1 +:+ "/" +:+ r2).
    now rewrite <- !StrFacts.app_assoc.
Qed.

(** Below a path that is removable nothing is stuck, and [RemoveAll]
    leaves nothing. *)
Lemma removable_not_stuck w root p :
  removable w root -> Os.below root p = true -> Os.stuck w p = false.
Proof.
  intros Hrem Hp. unfold Os.stuck.
  destruct (existsb _ (map_to_list (fs w))) eqn:E; [|reflexivity]. exfalso.
  apply existsb_exists in E as ([k x] & Hin & Hk). simpl in Hk.
  apply andb_true_iff in Hk as [Hb Hw].
  apply list_elem_of_In, elem_of_map_to_list in Hin.
  rewrite (Hrem k x Hin (below_trans _ _ _ Hp Hb)) in Hw. discriminate.
Qed.

Lemma RemoveAll_removes root w p :
  fs w !! root <> None -> removable w root -> Os.below root p = true ->
  fs (snd (Os.RemoveAll root w)) !! p = None.
Proof.
  intros Hroot Hrem Hp. unfold Os.RemoveAll.
  destruct (fs w !! root); [|congruence]. simpl.
  apply map_lookup_filter_None_2. right. intros x _ [H|H]; simpl in H.
  - congruence.
  - rewrite (removable_not_stuck w root p Hrem Hp) in H. discriminate.
Qed.

End ResetFacts.

(** X4: [installOllama] stops at the first of its four commands that
    fails.  When [curl], [tar], [mv] or [chmod] exits with an error, the
    run returns this error under the name of the step, in the world that the
    failing command has left: the commands before it are the only other
    ones that have been spawned, nothing is cleaned up and the PATH Updater
    does not run.  When the four commands and the creation of the bin
    directory succeed, the run returns no error, whatever the clean-up and
    the PATH Updater do, and it has spawned the four commands in their
    order, each once. *)
Theorem installOllama_commands (env : Env) (url : string) (w : World) :
  let homeDir := HOME env in
  let tempFile := Filepath.Join [homeDir; "ollama.tgz"] in
  let binDir := Filepath.Join [homeDir; "bin"] in
  let tempDir := Filepath.Join [homeDir; "ollama-extract"] in
  let finalPath := Filepath.Join [binDir; "ollama"] in
  let curl := curl_argv url tempFile in
  let tar := tar_argv tempFile tempDir in
  let mv := mv_argv (Filepath.Join [tempDir; "bin"; "ollama"]) finalPath in
  let chmod := chmod_argv finalPath in
  (forall e w1,
     Os.Run env true curl (before_download url w) = (Some e, w1) ->
     installOllama env url w = (Some ("failed to download: " +:+ e), w1)
     /\ spawned w1 = spawned w ++ [curl])
  /\ (forall w1 w2 e w3,
       Os.Run env true curl (before_download url w) = (None, w1) ->
       Os.MkdirAll binDir w1 = (None, w2) ->
       Os.Run env true tar (before_extract tempDir w2) = (Some e, w3) ->
       installOllama env url w = (Some ("failed to extract: " +:+ e), w3)
       /\ spawned w3 = spawned w ++ [curl; tar])
  /\ (forall w1 w2 w3 e w4,
       Os.Run env true curl (before_download url w) = (None, w1) ->
       Os.MkdirAll binDir w1 = (None, w2) ->
       Os.Run env true tar (before_extract tempDir w2) = (None, w3) ->
       Os.Run env false mv w3 = (Some e, w4) ->
       installOllama env url w = (Some ("failed to move binary: " +:+ e), w4)
       /\ spawned w4 = spawned w ++ [curl; tar; mv])
  /\ (forall w1 w2 w3 w4 e w5,
       Os.Run env true curl (before_download url w) = (None, w1) ->
       Os.MkdirAll binDir w1 = (None, w2) ->
       Os.Run env true tar (before_extract tempDir w2) = (None, w3) ->
       Os.Run env false mv w3 = (None, w4) ->
       Os.Run env false chmod w4 = (Some e, w5) ->
       installOllama env url w = (Some ("failed to make executable: " +:+ e), w5)
       /\ spawned w5 = spawned w ++ [curl; tar; mv; chmod])
  /\ (forall w1 w2 w3 w4 w5,
       Os.Run env true curl (before_download url w) = (None, w1) ->
       Os.MkdirAll binDir w1 = (None, w2) ->
       Os.Run env true tar (before_extract tempDir w2) = (None, w3) ->
       Os.Run env false mv w3 = (None, w4) ->
       Os.Run env false chmod w4 = (None, w5) ->
       fst (installOllama env url w) = None
       /\ spawned (snd (installOllama env url w)) = spawned w ++ [curl; tar; mv; chmod]
       /\ fs (snd (installOllama env url w)) =
            fs (snd (updatePath env homeDir (before_updatePath tempFile tempDir w5)))).
Proof.
  intros homeDir tempFile binDir tempDir finalPath curl tar mv chmod.
  pose proof (InstallFacts.installOllama_steps env url w) as Hsteps. cbv zeta in Hsteps.
  fold homeDir tempFile binDir tempDir finalPath curl tar mv chmod in Hsteps.
  assert (S1 : forall x w1, Os.Run env true curl (before_download url w) = (x, w1) ->
                 spawned w1 = spawned w ++ [curl]).
  { intros x w1 H.
    pose proof (OsFacts.Run_spawned env true curl (before_download url w)) as Hs.
    now rewrite H in Hs. }
  assert (S2 : forall w1 x w2, Os.MkdirAll binDir w1 = (x, w2) -> spawned w2 = spawned w1).
  { intros w1 x w2 H. pose proof (OsFacts.MkdirAll_io binDir w1) as (_ & Hs & _).
    now rewrite H in Hs. }
  assert (S3 : forall w2 x w3, Os.Run env true tar (before_extract tempDir w2) = (x, w3) ->
                 spawned w3 = spawned w2 ++ [tar]).
  { intros w2 x w3 H.
    pose proof (OsFacts.Run_spawned env true tar (before_extract tempDir w2)) as Hs.
    rewrite H in Hs. simpl in Hs. rewrite Hs. f_equal. unfold before_extract.
    change (spawned (snd (Os.Printf _ _ ?x))) with (spawned x).
    pose proof (OsFacts.MkdirAll_io tempDir (snd (Os.RemoveAll tempDir w2))) as (_ & -> & _).
    apply (OsFacts.RemoveAll_io tempDir w2). }
  assert (S4 : forall argv w3 x w4, Os.Run env false argv w3 = (x, w4) ->
                 spawned w4 = spawned w3 ++ [argv]).
  { intros argv w3 x w4 H. pose proof (OsFacts.Run_spawned env false argv w3) as Hs.
    now rewrite H in Hs. }
  split; [|split; [|split; [|split]]].
  - intros e w1 H1. rewrite H1 in Hsteps. split; [exact Hsteps | exact (S1 _ _ H1)].
  - intros w1 w2 e w3 H1 H2 H3. rewrite H1, H2, H3 in Hsteps. split; [exact Hsteps|].
    rewrite (S3 _ _ _ H3), (S2 _ _ _ H2), (S1 _ _ H1), <- app_assoc. reflexivity.
  - intros w1 w2 w3 e w4 H1 H2 H3 H4. rewrite H1, H2, H3, H4 in Hsteps.
    split; [exact Hsteps|].
    rewrite (S4 _ _ _ _ H4), (S3 _ _ _ H3), (S2 _ _ _ H2), (S1 _ _ H1), <- !app_assoc.
    reflexivity.
  - intros w1 w2 w3 w4 e w5 H1 H2 H3 H4 H5. rewrite H1, H2, H3, H4, H5 in Hsteps.
    split; [exact Hsteps|].
    rewrite (S4 _ _ _ _ H5), (S4 _ _ _ _ H4), (S3 _ _ _ H3), (S2 _ _ _ H2), (S1 _ _ H1),
      <- !app_assoc.
    reflexivity.
  - intros w1 w2 w3 w4 w5 H1 H2 H3 H4 H5. rewrite H1, H2, H3, H4, H5 in Hsteps.
    pose proof (InstallFacts.updatePath_io env homeDir (before_updatePath tempFile tempDir w5))
      as [Hs6 _].
    assert (Hs6' : spawned (before_updatePath tempFile tempDir w5) = spawned w5).
    { unfold before_updatePath.
      pose proof (OsFacts.RemoveAll_io tempDir (snd (Os.Remove tempFile w5))) as (_ & -> & _).
      apply (OsFacts.Remove_io tempFile w5). }
    rewrite Hs6', (S4 _ _ _ _ H5), (S4 _ _ _ _ H4), (S3 _ _ _ H3), (S2 _ _ _ H2),
      (S1 _ _ H1), <- !app_assoc in Hs6.
    rewrite Hsteps.
    destruct (updatePath env homeDir (before_updatePath tempFile tempDir w5)) as [[e6|] w6];
      simpl in Hs6 |- *; auto.
Qed.

(** X5: when the bin directory's path holds a regular file after the
    download, [installOllama] stops with the error of the directory
    creation, in the world that [curl] has left: [tar], [mv] and [chmod] are
    not run and the downloaded archive is not removed. *)
Theorem installOllama_bin_is_file (env : Env) (url : string) (w w1 : World)
    (content : string) (r wr : bool) :
  let tempFile := Filepath.Join [HOME env; "ollama.tgz"] in
  let binDir := Filepath.Join [HOME env; "bin"] in
  Os.Run env true (curl_argv url tempFile) (before_download url w) = (None, w1) ->
  fs w1 !! binDir = Some (File content r wr) ->
  installOllama env url w =
    (Some ("failed to create bin directory: mkdir " +:+ binDir +:+ ": not a directory"), w1)
  /\ spawned w1 = spawned w ++ [curl_argv url tempFile].
Proof.
  intros tempFile binDir Hcurl Hbin.
  pose proof (InstallFacts.installOllama_steps env url w) as Hsteps. cbv zeta in Hsteps.
  fold tempFile binDir in Hsteps. rewrite Hcurl in Hsteps.
  assert (Hmk : Os.MkdirAll binDir w1 =
                (Some ("mkdir " +:+ binDir +:+ ": not a directory"), w1)).
  { unfold Os.MkdirAll. destruct (String.length binDir); simpl; now rewrite Hbin. }
  rewrite Hmk in Hsteps. split; [exact Hsteps|].
  pose proof (OsFacts.Run_spawned env true (curl_argv url tempFile) (before_download url w)) as Hs.
  now rewrite Hcurl in Hs.
Qed.

(** X6: the reset of the scratch directory before the extraction.  When the
    directory that holds the scratch directory can be changed, and so can
    every directory in which something at or below the scratch directory
    lies (and nothing lies below a scratch directory that does not exist),
    removing and re-creating it leaves an empty directory: nothing of an
    earlier extraction is left below it, and every path outside it is as
    before. *)
Theorem scratch_directory_reset (tempDir : string) (w : World) :
  Filepath.Dir tempDir <> tempDir ->
  fs w !! Filepath.Dir tempDir = Some (Directory true) ->
  (fs w !! tempDir = None -> forall p, Os.below tempDir p = true -> fs w !! p = None) ->
  removable w tempDir ->
  let w' := before_extract tempDir w in
  (exists d, fs w' !! tempDir = Some (Directory d))
  /\ (forall p, Os.below tempDir p = true -> p <> tempDir -> fs w' !! p = None)
  /\ (forall p, Os.below tempDir p = false -> fs w' !! p = fs w !! p).
Proof.
  intros Hne Hparent Htree Hrem w'.
  pose proof (ResetFacts.below_Dir tempDir Hne) as Hbelow.
  set (wa := snd (Os.RemoveAll tempDir w)).
  assert (Hout : forall p, Os.below tempDir p = false -> fs wa !! p = fs w !! p)
    by (intros p Hp; now apply OsFacts.RemoveAll_frame).
  assert (Hin : forall p, Os.below tempDir p = true -> fs wa !! p = None).
  { intros p Hp. destruct (fs w !! tempDir) eqn:E.
    - apply ResetFacts.RemoveAll_removes; [congruence | assumption | assumption].
    - unfold wa, Os.RemoveAll. rewrite E. now apply Htree. }
  assert (Hmk : Os.MkdirAll tempDir wa = (None, set_fs (insert tempDir (Directory true)) wa)).
  { apply ResetFacts.MkdirAll_creates.
    - apply Hin, ResetFacts.below_self.
    - now rewrite Hout. }
  assert (Hfs : fs w' = <[tempDir := Directory true]> (fs wa)).
  { unfold w', before_extract. fold wa. now rewrite Hmk. }
  rewrite Hfs. split; [exists true; apply lookup_insert_eq|]. split.
  - intros p Hp Hpne. rewrite lookup_insert_ne by congruence. now apply Hin.
  - intros p Hp. rewrite lookup_insert_ne.
    + now apply Hout.
    + intros ->. now rewrite ResetFacts.below_self in Hp.
Qed.

(** X7: [main] makes exactly one HTTP request in every run.  When the
    version is not resolved it spawns no command; otherwise it spawns
    between one and four of the installer's commands for the download
    address of the resolved version, in their order. *)
Theorem main_requests_and_commands (env : Env) (w : World) :
  let version := fst (fst (getLatestOllamaVersion env w)) in
  let err := snd (fst (getLatestOllamaVersion env w)) in
  requests (snd (main env w)) = requests w ++ [latestURL]
  /\ exists n, n <= 4
       /\ spawned (snd (main env w)) =
            spawned w ++ firstn n (install_commands (getDownloadURL version) (HOME env))
       /\ (err <> None -> n = 0)
       /\ (err = None -> 1 <= n).
Proof.
  intros version err. unfold main, mbind, M_bind.
  pose proof (MoreFacts.getLatest_world env w) as Hw.
  subst version err.
  destruct (getLatestOllamaVersion env w) as [[version [e|]] w1];
    cbn [fst snd] in *; subst w1.
  - split; [reflexivity|]. exists 0. cbn [firstn]. rewrite app_nil_r.
    repeat split; auto; try lia. discriminate.
  - rewrite MoreFacts.Printf_eta. cbv beta iota.
    set (w1 := snd (Os.Printf _ [version] _)).
    assert (Hw1 : spawned w1 = spawned w /\ requests w1 = requests w ++ [latestURL])
      by (split; reflexivity).
    destruct Hw1 as [Hw1 Hw1'].
    destruct (InstallMore.installOllama_shape env (getDownloadURL version) w1)
      as (n & Hn & Hs & Hq & _).
    rewrite Hw1 in Hs. rewrite Hw1' in Hq.
    destruct (installOllama env (getDownloadURL version) w1) as [[e|] w2];
      cbn [fst snd] in *;
      (split; [exact Hq|]); exists n;
      (split; [lia|]); (split; [exact Hs|]); (split; [congruence | intros _; lia]).
Qed.


Section UpdaterMore.

Import UpdateFacts CountFacts ScanFacts.

Variable env : Env.

(** X9: after a run of [updatePath] that reports success, the export line
    is in at least one candidate file, whatever the files were before and
    whether or not they can be read. *)
Theorem updatePath_success_line (homeDir : string) (w w1 : World) :
  updatePath env homeDir w = (None, w1) ->
  0 < occurrences homeDir (fs w1).
Proof.
  intros Hrun. rewrite updatePath_refines in Hrun. unfold updatePath_spec in Hrun.
  destruct (existsb (fun name => visible (fs w) (Filepath.Join [homeDir; name])) configFiles)
    eqn:Efound.
  - inversion Hrun; subst w1.
    apply existsb_exists in Efound as (name & Hin & Hvis). apply visible_counts in Hvis.
    pose proof (count_le_occurrences homeDir (fs w) name Hin). lia.
  - destruct (candidates_outcome env homeDir w None w1 Hrun)
      as (_ & _ & _ & name & Hin & _ & (content & r & wr & _ & Hnew) & _).
    pose proof (count_le_occurrences homeDir (fs w1) name Hin) as Hle.
    unfold file_count in Hle. rewrite Hnew, line_count_appended in Hle. lia.
Qed.

(** X10: when [updatePath] fails, its error is the fixed message that no
    configuration file could be updated; it has printed nothing, spawned
    nothing and requested nothing.  No file has received the whole export
    text: every node is as before, or it is the file it was (a new file
    when there was none) with the bytes that a failed write has written, a
    proper prefix of the export text, at its end.  When the failed writes
    have written no byte, the export line occurs in the candidate files as
    often as before. *)
Theorem updatePath_failure (homeDir : string) (w : World) (e : string) (w1 : World) :
  updatePath env homeDir w = (Some e, w1) ->
  e = updateError
  /\ stdout w1 = stdout w /\ spawned w1 = spawned w /\ requests w1 = requests w
  /\ (forall p, fs w1 !! p = fs w !! p \/
                exists part, proper_prefix part exportText /\
                             extended_by part (fs w !! p) (fs w1 !! p))
  /\ (forall p, ~ extended_by exportText (fs w !! p) (fs w1 !! p))
  /\ ((forall name, In name configFiles ->
         short_write env (Filepath.Join [homeDir; name]) = 0) ->
      occurrences homeDir (fs w1) = occurrences homeDir (fs w)).
Proof.
  intros Hrun. rewrite updatePath_refines in Hrun. unfold updatePath_spec in Hrun.
  destruct (existsb _ configFiles); [discriminate|].
  destruct (candidates_outcome env homeDir w _ w1 Hrun) as (Hs & Hq & _ & He & Hst & Hk).
  do 4 (split; [assumption|]). split; [|split].
  - intros p. destruct (Hk p) as [H|H]; [now left|]. right.
    exists (Os.short env p exportText). split; [|exact H].
    apply short_proper. discriminate.
  - intros p. exact (failed_not_whole env p _ _ (Hk p)).
  - intros Hshort. unfold occurrences. f_equal. apply map_ext_in. intros name Hin.
    exact (failed_count env _ (fs w) (fs w1) (Hshort name Hin) (Hk _)).
Qed.

(** X11: a run of [updatePath] that reports success has either changed
    nothing at all, or it has added the whole export text to exactly one
    candidate file and printed one line that names this file; every other
    node is as before, or has received only a proper prefix of the text
    from an append that has failed. *)
Theorem updatePath_one_file (homeDir : string) (w w1 : World) :
  updatePath env homeDir w = (None, w1) ->
  w1 = w \/
  exists name, In name configFiles
    /\ stdout w1 = stdout w ++ [updatedLine name]
    /\ spawned w1 = spawned w /\ requests w1 = requests w
    /\ extended_by exportText (fs w !! Filepath.Join [homeDir; name])
                              (fs w1 !! Filepath.Join [homeDir; name])
    /\ forall p, p <> Filepath.Join [homeDir; name] ->
         ~ extended_by exportText (fs w !! p) (fs w1 !! p)
         /\ (fs w1 !! p = fs w !! p \/
             exists part, proper_prefix part exportText /\
                          extended_by part (fs w !! p) (fs w1 !! p)).
Proof.
  intros Hrun. rewrite updatePath_refines in Hrun. unfold updatePath_spec in Hrun.
  destruct (existsb _ configFiles); [left; congruence|]. right.
  destruct (candidates_outcome env homeDir w _ w1 Hrun)
    as (Hs & Hq & _ & name & Hin & Hst & Happ & Hk).
  exists name. do 5 (split; [assumption|]). intros p Hp. split.
  - exact (failed_not_whole env p _ _ (Hk p Hp)).
  - destruct (Hk p Hp) as [H|H]; [now left|]. right.
    exists (Os.short env p exportText). split; [|exact H].
    apply short_proper. discriminate.
Qed.

(** X12: [.zshrc] comes first.  When the export line shows in no candidate
    file, [.zshrc] is a file that can be opened for writing and the write
    goes through, the export text is added to [.zshrc] and nothing else
    changes: no other candidate is created or touched. *)
Theorem updatePath_prefers_zshrc (homeDir : string) (w : World) (content : string)
    (r : bool) :
  existsb (fun name => visible (fs w) (Filepath.Join [homeDir; name])) configFiles = false ->
  fs w !! Filepath.Join [homeDir; ".zshrc"] = Some (File content r true) ->
  write_ok env (Filepath.Join [homeDir; ".zshrc"]) = true ->
  updatePath env homeDir w =
    (None,
     {| fs := <[Filepath.Join [homeDir; ".zshrc"] := File (content +:+ exportText) r true]>
                (fs w);
        stdout := stdout w ++ [updatedLine ".zshrc"];
        spawned := spawned w;
        requests := requests w |}).
Proof.
  intros Hnot Hz Hw. rewrite updatePath_refines. unfold updatePath_spec. rewrite Hnot.
  unfold candidates, first_append. rewrite Hz.
  unfold appendToFile, mbind, M_bind, mret, M_ret, Os.OpenAppend, Os.WriteString.
  rewrite Hz. simpl. rewrite Hw. simpl.
  unfold set_fs. simpl. rewrite (alter_alt_Some _ _ _ _ Hz). reflexivity.
Qed.


(** X14: [appendToFile] only adds at the end of its one file.  No other
    path changes and nothing is printed.  When it succeeds, the file holds
    its former content (none for a new file) followed by a line feed, the
    given content and a line feed.  When it fails, the error names the file
    and says whether the opening or the writing has failed: after a failed
    opening the world is as before, after a failed writing the file has
    received a proper prefix of that text.  A directory, a file that cannot
    be opened for writing, and a missing file in a directory that cannot be
    changed make it fail. *)
Theorem appendToFile_outcome (path content : string) (w : World) :
  let r := appendToFile env path content w in
  let text := nl +:+ content +:+ nl in
  (forall p, p <> path -> fs (snd r) !! p = fs w !! p)
  /\ stdout (snd r) = stdout w /\ spawned (snd r) = spawned w
  /\ requests (snd r) = requests w
  /\ (fst r = None -> extended_by text (fs w !! path) (fs (snd r) !! path))
  /\ (forall e, fst r = Some e ->
        (exists cause, e = "failed to open " +:+ path +:+ ": " +:+ cause /\ snd r = w)
        \/ (exists cause part,
              e = "failed to write to " +:+ path +:+ ": " +:+ cause
              /\ proper_prefix part text
              /\ extended_by part (fs w !! path) (fs (snd r) !! path)))
  /\ (fs w !! path <> None ->
      (forall c rd, fs w !! path <> Some (File c rd true)) ->
      fst r <> None /\ snd r = w)
  /\ (fs w !! path = None ->
      fs w !! Filepath.Dir path <> Some (Directory true) ->
      fst r <> None /\ snd r = w).
Proof.
  intros r text.
  assert (Hprop : proper_prefix (Os.short env path text) text).
  { apply short_proper. unfold text, nl. discriminate. }
  subst r. unfold appendToFile, mbind, M_bind, mret, M_ret, Os.OpenAppend, Os.WriteString.
  fold text.
  destruct (fs w !! path) as [[c rd [|]|wr]|] eqn:E; simpl.
  - destruct (write_ok env path) eqn:Ew; simpl.
    + split; [intros p Hp; now rewrite lookup_alter_ne by congruence|].
      do 3 (split; [reflexivity|]). split; [|split; [discriminate|split; [|congruence]]].
      * intros _. exists c, rd, true. split; [now left|]. now rewrite lookup_alter_eq, E.
      * intros _ H. exfalso. now apply (H c rd).
    + split; [intros p Hp; now rewrite lookup_alter_ne by congruence|].
      do 3 (split; [reflexivity|]). split; [discriminate|].
      split; [|split; [|congruence]].
      * intros e He. inversion He. right. eexists _, (Os.short env path text).
        split; [unfold Fmt.Errorf; simpl; reflexivity|]. split; [exact Hprop|].
        exists c, rd, true. split; [now left|]. now rewrite lookup_alter_eq, E.
      * intros _ H. exfalso. now apply (H c rd).
  - split; [reflexivity|]. do 3 (split; [reflexivity|]). split; [discriminate|].
    split; [|split; [|congruence]].
    + intros e He. inversion He. left. eexists. split; [|reflexivity].
      unfold Fmt.Errorf. simpl. reflexivity.
    + intros _ _. split; [discriminate | reflexivity].
  - split; [reflexivity|]. do 3 (split; [reflexivity|]). split; [discriminate|].
    split; [|split; [|congruence]].
    + intros e He. inversion He. left. eexists. split; [|reflexivity].
      unfold Fmt.Errorf. simpl. reflexivity.
    + intros _ _. split; [discriminate | reflexivity].
  - destruct (fs w !! Filepath.Dir path) as [[c rd wr|[|]]|] eqn:Ed; simpl.
    + split; [reflexivity|]. do 3 (split; [reflexivity|]). split; [discriminate|].
      split; [|split; [congruence|]].
      * intros e He. inversion He. left. eexists. split; [|reflexivity].
        unfold Fmt.Errorf. simpl. reflexivity.
      * intros _ _. split; [discriminate | reflexivity].
    + destruct (write_ok env path) eqn:Ew; simpl.
      * split; [intros p Hp; now rewrite lookup_alter_ne, lookup_insert_ne by congruence|].
        do 3 (split; [reflexivity|]). split; [|split; [discriminate|split; congruence]].
        intros _. exists EmptyString, true, true. split; [now right|].
        now rewrite lookup_alter_eq, lookup_insert_eq.
      * split; [intros p Hp; now rewrite lookup_alter_ne, lookup_insert_ne by congruence|].
        do 3 (split; [reflexivity|]). split; [discriminate|].
        split; [|split; congruence].
        intros e He. inversion He. right. eexists _, (Os.short env path text).
        split; [unfold Fmt.Errorf; simpl; reflexivity|]. split; [exact Hprop|].
        exists EmptyString, true, true. split; [now right|].
        now rewrite lookup_alter_eq, lookup_insert_eq.
    + split; [reflexivity|]. do 3 (split; [reflexivity|]). split; [discriminate|].
      split; [|split; [congruence|]].
      * intros e He. inversion He. left. eexists. split; [|reflexivity].
        unfold Fmt.Errorf. simpl. reflexivity.
      * intros _ _. split; [discriminate | reflexivity].
    + split; [reflexivity|]. do 3 (split; [reflexivity|]). split; [discriminate|].
      split; [|split; [congruence|]].
      * intros e He. inversion He. left. eexists. split; [|reflexivity].
        unfold Fmt.Errorf. simpl. reflexivity.
      * intros _ _. split; [discriminate | reflexivity].
Qed.

(** X15: what [appendToFile] has written is read back as a line of its
    own.  After a successful append of a content without line feed to a
    file that can be read and whose lines fit the scanner's buffer, opening
    the file and scanning it delivers the former lines and then the
    content, each without its carriage return: the content is not joined to
    the former last line, even when that line had no line feed. *)
Theorem appendToFile_read_back (path content : string) (w w1 : World) (old : string) :
  appendToFile env path content w = (None, w1) ->
  (exists wr, fs w !! path = Some (File old true wr)) \/
    (fs w !! path = None /\ old = EmptyString) ->
  Str.split_at "010" content = [content] ->
  Bufio.fits content = true ->
  Forall (fun l => Bufio.fits l = true) (lines old) ->
  exists file,
    Os.Open path w1 = ((file, None), w1)
    /\ scanner_tokens file = map Bufio.dropCR (lines old ++ [content]).
Proof.
  intros Hrun Hold Hline Hfit Hfits.
  assert (Hfile : exists wr,
            fs w1 !! path = Some (File (old +:+ nl +:+ content +:+ nl) true wr)).
  { unfold appendToFile, mbind, M_bind, mret, M_ret, Os.OpenAppend, Os.WriteString in Hrun.
    destruct Hold as [[wr Ho]|[Ho ->]]; rewrite Ho in Hrun.
    - destruct wr; simpl in Hrun; [|discriminate].
      destruct (write_ok env path); simpl in Hrun; [|discriminate].
      inversion Hrun; subst w1. simpl. exists true. now rewrite lookup_alter_eq, Ho.
    - destruct (fs w !! Filepath.Dir path) as [[? ? ?|[|]]|]; simpl in Hrun;
        try discriminate.
      destruct (write_ok env path); simpl in Hrun; [|discriminate].
      inversion Hrun; subst w1. simpl. exists true.
      now rewrite lookup_alter_eq, lookup_insert_eq. }
  destruct Hfile as [wr Hfile].
  exists (HFile (old +:+ nl +:+ content +:+ nl)). split.
  - unfold Os.Open. now rewrite Hfile.
  - simpl. now apply scan_appended.
Qed.

End UpdaterMore.

Module ConsoleFacts.

Import OsFacts InstallFacts UpdateFacts CountFacts.

#[local] Arguments Os.Printf : simpl never.
#[local] Arguments Os.Run : simpl never.
#[local] Arguments Os.MkdirAll : simpl never.
#[local] Arguments Os.RemoveAll : simpl never.
#[local] Arguments Os.Remove : simpl never.
#[local] Arguments updatePath : simpl never.

Lemma grows_refl w : grows w w.
Proof. exists []. now rewrite app_nil_r. Qed.

Lemma grows_trans a b c : grows a b -> grows b c -> grows a c.
Proof. intros [m1 H1] [m2 H2]. exists (m1 ++ m2). now rewrite H2, H1, app_assoc. Qed.

Lemma grows_io w w' : same_io w w' -> grows w w'.
Proof. intros (H & _). exists []. now rewrite app_nil_r. Qed.

Lemma grows_Printf f args w : grows w (snd (Os.Printf f args w)).
Proof. now exists [Fmt.Sprintf f args]. Qed.

Lemma grows_printed more w : grows w (printed more w).
Proof. now exists more. Qed.

Lemma grows_Run env toStdout argv w : grows w (snd (Os.Run env toStdout argv w)).
Proof.
  unfold Os.Run. destruct (exec env argv (fs w)) as [[files out] err]. simpl.
  destruct toStdout; [now exists [out] | exists []; simpl; now rewrite app_nil_r].
Qed.

Lemma grows_updatePath env homeDir w : grows w (snd (updatePath env homeDir w)).
Proof.
  rewrite updatePath_refines. unfold updatePath_spec.
  destruct (existsb _ configFiles); [apply grows_refl|].
  destruct (first_append env homeDir candidates w) as [r w1] eqn:E.
  destruct (candidates_outcome env homeDir w r w1 E) as (_ & _ & _ & H).
  destruct r as [e|].
  - destruct H as (_ & Hst & _). exists []. simpl. now rewrite app_nil_r.
  - destruct H as (name & _ & Hst & _). simpl. eexists. exact Hst.
Qed.

(** Every run of the installer begins with its announcement of the
    download. *)
Lemma installOllama_announces env url w :
  exists rest,
    stdout (snd (installOllama env url w)) =
    stdout w ++ ("Downloading Ollama from " +:+ url +:+ "..." +:+ nl) :: rest.
Proof.
  assert (H : grows (before_download url w) (snd (installOllama env url w))).
  { pose proof (installOllama_steps env url w) as Hsteps. cbv zeta in Hsteps.
    rewrite Hsteps. clear Hsteps.
    set (tempFile := Filepath.Join [HOME env; "ollama.tgz"]).
    set (binDir := Filepath.Join [HOME env; "bin"]).
    set (tempDir := Filepath.Join [HOME env; "ollama-extract"]).
    set (finalPath := Filepath.Join [binDir; "ollama"]).
    pose proof (grows_Run env true (curl_argv url tempFile) (before_download url w)) as G1.
    destruct (Os.Run env true (curl_argv url tempFile) (before_download url w))
      as [[e1|] w1]; [exact G1|].
    pose proof (grows_io _ _ (MkdirAll_io binDir w1)) as G2.
    destruct (Os.MkdirAll binDir w1) as [[e2|] w2]; [exact (grows_trans _ _ _ G1 G2)|].
    assert (G3 : grows w2 (before_extract tempDir w2)).
    { unfold before_extract.
      eapply grows_trans; [apply grows_io, RemoveAll_io|].
      eapply grows_trans; [apply grows_io, MkdirAll_io | apply grows_Printf]. }
    pose proof (grows_Run env true (tar_argv tempFile tempDir) (before_extract tempDir w2))
      as G4.
    pose proof (grows_trans _ _ _ (grows_trans _ _ _ (grows_trans _ _ _ G1 G2) G3) G4) as G.
    clear G1 G2 G3 G4.
    destruct (Os.Run env true (tar_argv tempFile tempDir) (before_extract tempDir w2))
      as [[e3|] w3]; [exact G|].
    pose proof (grows_Run env false
                  (mv_argv (Filepath.Join [tempDir; "bin"; "ollama"]) finalPath) w3) as G5.
    destruct (Os.Run env false _ w3) as [[e4|] w4]; [exact (grows_trans _ _ _ G G5)|].
    pose proof (grows_Run env false (chmod_argv finalPath) w4) as G6.
    destruct (Os.Run env false (chmod_argv finalPath) w4) as [[e5|] w5];
      [exact (grows_trans _ _ _ (grows_trans _ _ _ G G5) G6)|].
    assert (G7 : grows w5 (before_updatePath tempFile tempDir w5)).
    { unfold before_updatePath.
      eapply grows_trans; [apply grows_io, Remove_io | apply grows_io, RemoveAll_io]. }
    pose proof (grows_updatePath env (HOME env) (before_updatePath tempFile tempDir w5)) as G8.
    pose proof (grows_trans _ _ _
                  (grows_trans _ _ _ (grows_trans _ _ _ (grows_trans _ _ _ G G5) G6) G7) G8)
      as G'.
    destruct (updatePath env (HOME env) (before_updatePath tempFile tempDir w5))
      as [[e6|] w6]; simpl snd in *;
      exact (grows_trans _ _ _ G' (grows_printed _ w6)). }
  destruct H as [more H]. exists more. rewrite H.
  unfold before_download. simpl. now rewrite <- app_assoc.
Qed.

End ConsoleFacts.
(** X8: [main] does not check that the resolved version is not empty.  On
    a JSON object without a member named [tag_name] (up to letter case), as
    the API sends it with an error status, it announces an empty version
    and goes on to download from the address built from it. *)
Theorem main_missing_tag (env : Env) (w : World) (status : nat)
    (members : list (string * Json.value)) :
  http env (length (requests w)) latestURL =
    HttpResponse status (BodyJSON (Json.Object members)) ->
  tag_members members = [] ->
  let url := "https://github.com/ollama/ollama/releases/download//ollama-linux-amd64.tgz" in
  (exists rest,
     stdout (snd (main env w)) =
       stdout w ++
       ("Latest Ollama version: " +:+ nl) ::
       ("Downloading Ollama from " +:+ url +:+ "..." +:+ nl) :: rest)
  /\ (exists rest,
        spawned (snd (main env w)) =
          spawned w ++ curl_argv url (Filepath.Join [HOME env; "ollama.tgz"]) :: rest).
Proof.
  intros Hresp Hnone url.
  assert (Hres : getLatestOllamaVersion env w =
                 ((EmptyString, None),
                  {| fs := fs w; stdout := stdout w; spawned := spawned w;
                     requests := requests w ++ [latestURL] |})).
  { unfold getLatestOllamaVersion, mbind, M_bind, mret, M_ret, Os.HttpGet. fold latestURL.
    rewrite Hresp. simpl. rewrite MoreFacts.fold_tag_members, Hnone. reflexivity. }
  unfold main, mbind, M_bind. rewrite Hres.
  change (getDownloadURL EmptyString) with url.
  rewrite MoreFacts.Printf_eta. cbv beta iota.
  set (w1 := snd (Os.Printf _ [EmptyString] _)).
  assert (Hw1 : stdout w1 = stdout w ++ ["Latest Ollama version: " +:+ nl] /\
                spawned w1 = spawned w) by (split; reflexivity).
  destruct Hw1 as [Ho1 Hs1].
  destruct (ConsoleFacts.installOllama_announces env url w1) as [rest Hout].
  destruct (InstallMore.installOllama_shape env url w1) as (n & Hn & Hs & _).
  rewrite Ho1, <- app_assoc in Hout. rewrite Hs1 in Hs.
  assert (Hcmd : exists more,
            firstn n (install_commands url (HOME env)) =
            curl_argv url (Filepath.Join [HOME env; "ollama.tgz"]) :: more).
  { destruct n as [|n]; [lia|]. unfold install_commands. cbn [firstn]. eauto. }
  destruct Hcmd as [more Hcmd]. rewrite Hcmd in Hs.
  destruct (installOllama env url w1) as [[e|] w2]; cbn [fst snd] in *.
  - split.
    + exists (rest ++ [Fmt.Sprintf ("Installation failed: %v" +:+ nl) [e]]).
      unfold Os.Printf. cbn [snd stdout]. rewrite Hout.
      rewrite <- !app_assoc. reflexivity.
    + exists more. exact Hs.
  - split; [exists rest; exact Hout | exists more; exact Hs].
Qed.


Lemma installOllama_bin_is_file_witness :
  let w := home_world [("/home/u/bin", File "not a directory" true true)] in
  let r := installOllama env_ok (getDownloadURL "v0.5.2") w in
  fst r = Some "failed to create bin directory: mkdir /home/u/bin: not a directory"
  /\ spawned (snd r) = [curl_argv (getDownloadURL "v0.5.2") "/home/u/ollama.tgz"].
Proof.
  intros w r.
  destruct (installOllama_bin_is_file env_ok (getDownloadURL "v0.5.2") w _
              "not a directory" true true eq_refl eq_refl) as [H1 H2].
  unfold r. rewrite H1. split; [reflexivity | exact H2].
Defined.

Lemma installOllama_commands_witness :
  let url := getDownloadURL "v0.5.2" in
  let failed_mv := installOllama (env_failing "mv") url (home_world []) in
  let failed_chmod := installOllama (env_failing "chmod") url (home_world []) in
  let done := installOllama env_ok url (home_world []) in
  fst failed_mv = Some "failed to move binary: exit status 1"
  /\ spawned (snd failed_mv) =
       [curl_argv url "/home/u/ollama.tgz";
        tar_argv "/home/u/ollama.tgz" "/home/u/ollama-extract";
        mv_argv "/home/u/ollama-extract/bin/ollama" "/home/u/bin/ollama"]
  /\ fs (snd failed_mv) !! "/home/u/ollama-extract" = Some (Directory true)
  /\ fst failed_chmod = Some "failed to make executable: exit status 1"
  /\ length (spawned (snd failed_chmod)) = 4
  /\ fst done = None
  /\ length (spawned (snd done)) = 4.
Proof.
  intros url failed_mv failed_chmod done.
  destruct (installOllama_commands (env_failing "mv") url (home_world []))
    as (_ & _ & Hmv & _).
  destruct (installOllama_commands (env_failing "chmod") url (home_world []))
    as (_ & _ & _ & Hchmod & _).
  destruct (installOllama_commands env_ok url (home_world [])) as (_ & _ & _ & _ & Hdone).
  destruct (Hmv _ _ _ _ _ eq_refl eq_refl eq_refl eq_refl) as [H1 H2].
  destruct (Hchmod _ _ _ _ _ _ eq_refl eq_refl eq_refl eq_refl eq_refl) as [H3 H4].
  destruct (Hdone _ _ _ _ _ eq_refl eq_refl eq_refl eq_refl eq_refl) as (H5 & H6 & _).
  unfold failed_mv, failed_chmod, done. rewrite H1, H3.
  split; [reflexivity|]. split; [exact H2|]. split; [reflexivity|].
  split; [reflexivity|].
  split; [exact (eq_trans (f_equal (@length _) H4) eq_refl)|].
  split; [exact H5 | exact (eq_trans (f_equal (@length _) H6) eq_refl)].
Defined.

Lemma scratch_directory_reset_witness :
  let w' := before_extract "/home/u/ollama-extract" stale_scratch in
  (exists d, fs w' !! "/home/u/ollama-extract" = Some (Directory d))
  /\ fs w' !! "/home/u/ollama-extract/bin" = None
  /\ fs w' !! "/home/u/ollama-extract/bin/ollama" = None
  /\ fs w' !! "/home/u" = Some (Directory true).
Proof.
  intros w'.
  destruct (scratch_directory_reset "/home/u/ollama-extract" stale_scratch)
    as (H1 & H2 & H3).
  - vm_compute. discriminate.
  - reflexivity.
  - intros H. vm_compute in H. discriminate.
  - intros q n Hq _. apply elem_of_map_to_list in Hq. vm_compute in Hq.
    repeat (apply elem_of_cons in Hq as [Hq|Hq]; [inversion Hq; reflexivity|]).
    now apply elem_of_nil in Hq.
  - split; [exact H1|]. split; [|split].
    + apply H2; [reflexivity | discriminate].
    + apply H2; [reflexivity | discriminate].
    + exact (eq_trans (H3 "/home/u" eq_refl) eq_refl).
Defined.

Lemma main_missing_tag_witness :
  exists rest,
    spawned (snd (main (env_with_body 403 rate_limited) (home_world []))) =
    curl_argv "https://github.com/ollama/ollama/releases/download//ollama-linux-amd64.tgz"
              "/home/u/ollama.tgz" :: rest.
Proof.
  destruct (main_missing_tag (env_with_body 403 rate_limited) (home_world []) 403
              [("message", Json.Str "API rate limit exceeded");
               ("documentation_url", Json.Str "https://docs.github.com/rest")]
              eq_refl eq_refl) as [_ [rest H]].
  exists rest. exact H.
Defined.

Lemma updatePath_success_line_witness :
  0 < occurrences "/home/u" (fs (snd (updatePath env_ok "/home/u" (home_world [])))).
Proof.
  apply (updatePath_success_line env_ok "/home/u" (home_world [])). reflexivity.
Defined.

Lemma updatePath_failure_witness :
  let r := updatePath (env_short_write 30) "/home/u" (home_world []) in
  fst r = Some updateError
  /\ stdout (snd r) = []
  /\ fs (snd r) !! "/home/u/.bash_profile" = Some (File (nl +:+ pathExport) true true)
  /\ occurrences "/home/u" (fs (snd r)) = 3
  /\ occurrences "/home/u"
       (fs (snd (updatePath env_disk_full "/home/u" (home_world [])))) = 0.
Proof.
  intros r.
  destruct (updatePath_failure (env_short_write 30) "/home/u" (home_world []) updateError
              (snd r) eq_refl) as (_ & H1 & _).
  destruct (updatePath_failure env_disk_full "/home/u" (home_world []) updateError
              (snd (updatePath env_disk_full "/home/u" (home_world []))) eq_refl)
    as (_ & _ & _ & _ & _ & _ & H2).
  split; [reflexivity|]. split; [exact H1|]. split; [reflexivity|]. split; [reflexivity|].
  exact (eq_trans (H2 (fun name _ => eq_refl)) eq_refl).
Defined.

Lemma updatePath_one_file_witness :
  let w1 := snd (updatePath env_ok "/home/u" (home_world [])) in
  exists name, In name configFiles
    /\ stdout w1 = [updatedLine name]
    /\ extended_by exportText None (fs w1 !! Filepath.Join ["/home/u"; name]).
Proof.
  intros w1.
  destruct (updatePath_one_file env_ok "/home/u" (home_world []) w1 eq_refl)
    as [H|(name & Hin & Hst & _ & _ & Hext & _)].
  - exfalso. apply (f_equal stdout) in H. vm_compute in H. discriminate.
  - exists name. split; [exact Hin|]. split; [exact Hst|].
    destruct Hin as [<-|[<-|[<-|[<-|[]]]]]; exact Hext.
Defined.

Lemma updatePath_prefers_zshrc_witness :
  let w := home_world [("/home/u/.zshrc", File ("# zsh" +:+ nl) true true);
                       ("/home/u/.bashrc", File ("# bash" +:+ nl) true true)] in
  let r := updatePath env_ok "/home/u" w in
  fst r = None
  /\ fs (snd r) !! "/home/u/.zshrc" = Some (File ("# zsh" +:+ nl +:+ exportText) true true)
  /\ fs (snd r) !! "/home/u/.bash_profile" = None.
Proof.
  intros w r.
  pose proof (updatePath_prefers_zshrc env_ok "/home/u" w ("# zsh" +:+ nl) true
                eq_refl eq_refl eq_refl) as H.
  unfold r. rewrite H. repeat split.
Defined.


Lemma appendToFile_outcome_witness :
  let w := home_world [("/home/u/.profile", File "umask 022" true true)] in
  let r := appendToFile (env_short_write 5) "/home/u/.profile" "export A=1" w in
  exists cause part,
    fst r = Some ("failed to write to /home/u/.profile: " +:+ cause)
    /\ proper_prefix part (nl +:+ "export A=1" +:+ nl)
    /\ extended_by part (Some (File "umask 022" true true)) (fs (snd r) !! "/home/u/.profile").
Proof.
  intros w r.
  destruct (appendToFile_outcome (env_short_write 5) "/home/u/.profile" "export A=1" w)
    as (_ & _ & _ & _ & _ & H & _).
  destruct (H "failed to write to /home/u/.profile: write /home/u/.profile: no space left on device"
              eq_refl) as [(cause & He & Hw)|(cause & part & He & Hp & Hext)].
  - exfalso. apply (f_equal (fun x => fs x !! "/home/u/.profile")) in Hw.
    vm_compute in Hw. discriminate.
  - exists cause, part. split; [|split; [exact Hp | exact Hext]].
    exact (f_equal Some He).
Defined.

Lemma appendToFile_read_back_witness :
  let w := home_world [("/home/u/.profile", File "umask 022" true true)] in
  let w1 := snd (appendToFile env_ok "/home/u/.profile" "export A=1" w) in
  exists file,
    Os.Open "/home/u/.profile" w1 = ((file, None), w1)
    /\ scanner_tokens file = ["umask 022"; "export A=1"].
Proof.
  intros w w1.
  destruct (appendToFile_read_back env_ok "/home/u/.profile" "export A=1" w w1 "umask 022")
    as (file & H1 & H2).
  - reflexivity.
  - left. exists true. reflexivity.
  - reflexivity.
  - reflexivity.
  - repeat constructor.
  - exists file. split; [exact H1 | exact H2].
Defined.

(** X16: the clean-up after the installation.  When the archive is a file
    outside the scratch directory, in a directory that can be changed, and
    the scratch directory exists and everything at or below it lies in a
    directory that can be changed, the archive and the scratch directory
    with everything below it are gone afterwards, and every other path is
    as before. *)
Theorem cleanup_removes (tempFile tempDir : string) (w : World)
    (content : string) (r wr : bool) (n : node) :
  fs w !! tempFile = Some (File content r wr) ->
  fs w !! Filepath.Dir tempFile = Some (Directory true) ->
  fs w !! tempDir = Some n ->
  removable w tempDir ->
  Os.below tempDir tempFile = false ->
  let w' := before_updatePath tempFile tempDir w in
  fs w' !! tempFile = None
  /\ (forall p, Os.below tempDir p = true -> fs w' !! p = None)
  /\ (forall p, Os.below tempDir p = false -> p <> tempFile -> fs w' !! p = fs w !! p).
Proof.
  intros Hfile Hfdir Hdir Hrem Hout w'.
  assert (Hrm : Os.Remove tempFile w = (None, set_fs (delete tempFile) w)).
  { unfold Os.Remove, Os.dir_writable. now rewrite Hfile, Hfdir. }
  assert (Hne1 : tempFile <> tempDir).
  { intros E. rewrite E, ResetFacts.below_self in Hout. discriminate. }
  set (w2 := set_fs (delete tempFile) w).
  assert (Hw' : w' = snd (Os.RemoveAll tempDir w2)).
  { unfold w', before_updatePath. now rewrite Hrm. }
  assert (Hrem2 : removable w2 tempDir).
  { intros q x Hq Hb. unfold w2 in Hq. simpl in Hq.
    apply lookup_delete_Some in Hq as [Hqne Hq].
    pose proof (Hrem q x Hq Hb) as Hwr. unfold Os.dir_writable in *. unfold w2. simpl.
    destruct (decide (Filepath.Dir q = tempFile)) as [Ed|Ed].
    - rewrite Ed, Hfile in Hwr. discriminate.
    - now rewrite lookup_delete_ne by congruence. }
  rewrite Hw'. split; [|split].
  - rewrite OsFacts.RemoveAll_frame by assumption. apply lookup_delete_eq.
  - intros p Hp. apply ResetFacts.RemoveAll_removes; [|assumption|assumption].
    unfold w2. simpl. rewrite lookup_delete_ne by assumption. congruence.
  - intros p Hp Hpne. rewrite OsFacts.RemoveAll_frame by assumption.
    unfold w2. simpl. now rewrite lookup_delete_ne by congruence.
Qed.

Lemma cleanup_removes_witness :
  let w' := before_updatePath "/home/u/ollama.tgz" "/home/u/ollama-extract" uncleaned in
  fs w' !! "/home/u/ollama.tgz" = None
  /\ fs w' !! "/home/u/ollama-extract" = None
  /\ fs w' !! "/home/u/ollama-extract/lib" = None
  /\ fs w' !! "/home/u/bin/ollama" = Some (File "binary" true true).
Proof.
  intros w'.
  destruct (cleanup_removes "/home/u/ollama.tgz" "/home/u/ollama-extract" uncleaned
              "archive" true true (Directory true) eq_refl eq_refl eq_refl)
    as (H1 & H2 & H3).
  - intros q n Hq _. apply elem_of_map_to_list in Hq. vm_compute in Hq.
    repeat (apply elem_of_cons in Hq as [Hq|Hq]; [inversion Hq; reflexivity|]).
    now apply elem_of_nil in Hq.
  - reflexivity.
  - split; [exact H1|].
    split; [exact (H2 "/home/u/ollama-extract" eq_refl)|].
    split; [exact (H2 "/home/u/ollama-extract/lib" eq_refl)|].
    refine (eq_trans (H3 "/home/u/bin/ollama" eq_refl _) eq_refl). discriminate.
Defined.
